(** * The asynchronous PNG-to-WebP job engine of [src/server.js]

    A shallow embedding of the conversion server: the quality-search
    converter [convertToWebP], the directory walk [processDirectory] with its
    pre-walk count [countPngs], the per-job orchestrator [processFilesAsync]
    and the request handlers around the [processingJobs] registry. *)

From Stdlib Require Import ZArith QArith Qround Qpower Lia Lqa List Ascii String SpecFloat.
From Equations Require Import Equations.
From stdpp Require Import base gmap strings pretty list sorting.

Local Open Scope string_scope.
Local Open Scope list_scope.
Local Open Scope Z_scope.

(** * Part I: the program *)

(** ** Buffers, exceptions and results *)

(** A Node [Buffer] is a sequence of bytes; [buffer.length] is its size. *)
Abbreviation Buffer := (list Byte.byte).

Definition byteLength (b : Buffer) : Z := Z.of_nat (length b).

(** The [Error] objects that reach a [catch] of the program, tagged by the
    place that throws them.  [CompressionFailed] is the one [convertToWebP]
    throws itself; the others come out of [sharp], [adm-zip] and [fs]. *)
Inductive Exn :=
| CompressionFailed
| CodecError (msg : string)
| ArchiveError (msg : string)
| FilesystemError (msg : string).

(** [error.message] *)
Definition message (e : Exn) : string :=
  match e with
  | CompressionFailed => "Could not compress image under 2MB"
  | CodecError msg | ArchiveError msg | FilesystemError msg => msg
  end.

Inductive result (A : Type) :=
| Ok (a : A)
| Throw (e : Exn).
Arguments Ok {A} a.
Arguments Throw {A} e.

(** What a call into a library gives back: its value, or the message of the
    error it raises. *)
Inductive outcome (A : Type) :=
| Done (a : A)
| Rejects (msg : string).
Arguments Done {A} a.
Arguments Rejects {A} msg.

(** The library's error, thrown as it is. *)
Definition raised {A} (tag : string -> Exn) (o : outcome A) : result A :=
  match o with
  | Done a => Ok a
  | Rejects msg => Throw (tag msg)
  end.

(** ** Paths and directory entries *)

(** A path is the list of its components; [path.join(dir, item)] is
    [dir ++ [item]]. *)
Abbreviation path := (list string).

Module Path.

(** Index of the last ['.'] of [s], counting from [i]. *)
Fixpoint lastDot (s : string) (i : nat) (acc : option nat) : option nat :=
  match s with
  | EmptyString => acc
  | String c s' => lastDot s' (S i) (if Ascii.eqb c "." then Some i else acc)
  end.

(** [path.extname(item)] for a directory entry name (no separator inside):
    the text from the last dot on, and the empty string when there is no dot,
    when the only dot is the first character, or for [".."]. *)
Definition extname (item : string) : string :=
  match lastDot item 0 None with
  | None => ""
  | Some O => ""
  | Some i =>
      if String.eqb item ".." then ""
      else substring i (String.length item - i) item
  end.

(** [path.parse(item).name]: the entry name without its extension. *)
Definition parse_name (item : string) : string :=
  substring 0 (String.length item - String.length (extname item)) item.

Definition lowerChar (c : ascii) : ascii :=
  let n := nat_of_ascii c in
  if ((65 <=? n) && (n <=? 90))%nat then ascii_of_nat (n + 32) else c.

(** [s.toLowerCase()]; only the letters of the ASCII range matter for the
    comparison with [".png"]. *)
Fixpoint toLowerCase (s : string) : string :=
  match s with
  | EmptyString => EmptyString
  | String c s' => String (lowerChar c) (toLowerCase s')
  end.

End Path.

(** [path.extname(item).toLowerCase() === ".png"] *)
Definition isPng (item : string) : bool :=
  String.eqb (Path.toLowerCase (Path.extname item)) ".png".

(** What extraction leaves under [extractDir]: directories, listed in
    [readdirSync] order, and regular files.  For these [stat.isFile()] is the
    negation of [stat.isDirectory()]. *)
#[warning="-register-all"]
Inductive node :=
| Directory (name : string) (items : list node)
| RegularFile (name : string) (data : Buffer).

Definition nodeName (n : node) : string :=
  match n with
  | Directory name _ => name
  | RegularFile name _ => name
  end.

(** ** The environment: codec, archive library, file system faults *)

Inductive FsOp :=
| Readdir (p : path)
| Stat (p : path)
| Mkdir (p : path)
| ReadFile (p : path)
| WriteFile (p : path)
| CopyFile (src dst : path)
| Rm (p : path).

Record Env := {
  (** [__dirname] *)
  dirname : path;
  (** [await sharp(buffer).webp({ quality, lossless: false }).toBuffer()] *)
  sharp_webp : Buffer -> Z -> outcome Buffer;
  (** [new AdmZip(fileBuffer)] followed by [zip.extractAllTo(extractDir, true)]:
      the entries now under [extractDir], or the exception of a corrupt
      archive. *)
  extractAllTo : Buffer -> outcome (list node);
  (** [addDirectoryToZip(outputDir)] followed by [outputZip.writeZip]: the
      bytes of the archive of the files under the given directory. *)
  writeZip : path -> gmap path Buffer -> outcome Buffer;
  (** the message of the error an [fs] call raises, if it does *)
  fs_fault : FsOp -> option string;
  (** What the [readdirSync], [statSync] and [readFileSync] of the walk find
      under a directory in which the count found the given entries.  The count
      is synchronous, but the walk reads each directory when it reaches it,
      after the [await]s of the conversions before it: it finds the entries
      that were counted unless a callback that ran during one of these
      [await]s has written under the directory, as the job of another upload
      with the same job id does. *)
  foundByWalk : path -> list node -> list node
}.

(** ** The quality-search converter *)

(** [const maxSize = 2 * 1024 * 1024; // 2 MB] *)
Definition maxSize : Z := 2 * 1024 * 1024.

(** [convertToWebP(buffer, quality = 90)].  The first component lists the
    quality levels handed to the codec, in call order; the second is what the
    promise settles to. *)
Equations? convertToWebP (env : Env) (buffer : Buffer) (quality : Z)
  : list Z * result Buffer by wf (Z.to_nat quality) lt :=
convertToWebP env buffer quality with Z_lt_dec quality 10 := {
  | left _ => ([], Throw CompressionFailed)
  | right _ with sharp_webp env buffer quality := {
      | Rejects msg => ([quality], Throw (CodecError msg))
      | Done webpBuffer with Z_lt_dec maxSize (byteLength webpBuffer) := {
          | left _ =>
              let r := convertToWebP env buffer (quality - 10) in
              (quality :: fst r, snd r)
          | right _ => ([quality], Ok webpBuffer) } } }.
Proof. lia. Qed.

(** The levels from 90 down to 10 in steps of 10. *)
Definition qualityLadder : list Z :=
  map (fun i => 90 - 10 * Z.of_nat i) (seq 0 9).

(** The codec's output at [quality] is a buffer above the ceiling. *)
Definition oversize (env : Env) (buffer : Buffer) (quality : Z) : Prop :=
  exists webpBuffer,
    sharp_webp env buffer quality = Done webpBuffer /\
    maxSize < byteLength webpBuffer.

(** ** JavaScript numbers *)

(** The progress formula divides and multiplies in binary64.  [round] is
    rounding to nearest, ties to even, at 53 bits of precision, written over
    the rationals; the quotients and products that occur are far inside the
    normal range, where this is the whole of the IEEE operation. *)
Module Double.

Definition pow2 (e : Z) : Q := (2 ^ e)%Q.

Definition roundHalfEven (x : Q) : Z :=
  let n := Qfloor x in
  match (x - inject_Z n ?= 1 # 2)%Q with
  | Lt => n
  | Gt => n + 1
  | Eq => if Z.even n then n else n + 1
  end.

(** the [e] with [2^e <= x < 2^(e+1)], for [0 < x] *)
Definition exponent (x : Q) : Z :=
  let e := Z.log2 (Qnum x) - Z.log2 (Zpos (Qden x)) in
  if Qle_bool (pow2 e) x then e else e - 1.

Definition roundPos (x : Q) : Q :=
  let e := exponent x in
  (inject_Z (roundHalfEven (x * pow2 (52 - e))) * pow2 (e - 52))%Q.

Definition round (x : Q) : Q :=
  let x := Qred x in
  match (0 ?= x)%Q with
  | Lt => roundPos x
  | Eq => 0%Q
  | Gt => (- roundPos (- x))%Q
  end.

(** the relative error bound of one rounding, [2^-53] *)
Definition u : Q := 1 # (2 ^ 53).

Definition div (x y : Q) : Q := round (x / y).
Definition mul (x y : Q) : Q := round (x * y).

(** The same operations in the Standard Library's specification of IEEE 754
    binary64, to compare [round] against. *)
Definition b64_of_Z (z : Z) : spec_float := binary_normalize 53 1024 z 0 false.

Definition b64_floor (x : spec_float) : option Z :=
  match x with
  | S754_zero _ => Some 0
  | S754_finite s m e =>
      let v := (if 0 <=? e then Zpos m * 2 ^ e else Zpos m / 2 ^ (- e))%Z in
      Some (if s then - v else v)%Z
  | _ => None
  end.

Definition b64_scaled (p t : Z) : option Z :=
  b64_floor
    (SFmul 53 1024 (SFdiv 53 1024 (b64_of_Z p) (b64_of_Z t)) (b64_of_Z 70)).

End Double.

(** [Math.floor((processedPngs / totalPngs) * 70)] *)
Definition scaled (processedPngs totalPngs : Z) : Z :=
  Qfloor (Double.mul (Double.div (inject_Z processedPngs) (inject_Z totalPngs)) 70).

(** [Math.min(90, 10 + Math.floor((processedPngs / totalPngs) * 70))].
    With [totalPngs] zero and [processedPngs] positive the quotient is
    [Infinity] and the minimum is 90. *)
Definition convertingProgress (processedPngs totalPngs : Z) : Z :=
  if totalPngs =? 0 then 90
  else Z.min 90 (10 + scaled processedPngs totalPngs).

(** ** Job records and the job's state *)

Inductive Status := extracting | converting | zipping | completed | failed.

(** The object literals handed to [processingJobs.set]; a key a literal does
    not mention is [None]. *)
Record JobRecord := {
  status : Status;
  progress : option Z;
  processedFiles : option Z;
  totalFiles : option Z;
  tempDir : path;
  outputPath : option path;
  downloadUrl : option string;
  error : option string
}.

(** The temp directories, by the set of existing directories and the content
    of the files written there. *)
Record Disk := {
  dirs : gset path;
  files : gmap path Buffer
}.

(** What one run of [processFilesAsync] reads and writes: the successive
    [processingJobs.set(jobId, ...)] of the run, oldest first, the disk, and
    the two counters declared by [let]. *)
Record JobState := {
  published : list JobRecord;
  disk : Disk;
  totalPngs : Z;
  processedPngs : Z
}.

(** Statements run in a state, return or throw. *)
Definition M (A : Type) : Type := JobState -> result A * JobState.

#[global] Instance M_ret : MRet M := fun A a s => (Ok a, s).

#[global] Instance M_bind : MBind M := fun A B k m s =>
  match m s with
  | (Ok a, s') => k a s'
  | (Throw e, s') => (Throw e, s')
  end.

(** [try { m } catch (error) { handler(error) }] *)
Definition try_catch {A} (m : M A) (handler : Exn -> M A) : M A := fun s =>
  match m s with
  | (Ok a, s') => (Ok a, s')
  | (Throw e, s') => handler e s'
  end.

Definition settle {A} (r : result A) : M A := fun s => (r, s).

Definition getState : M JobState := fun s => (Ok s, s).

Definition forM_ {A} (f : A -> M unit) : list A -> M unit :=
  fix go l :=
    match l with
    | [] => mret tt
    | x :: rest => f x ;; go rest
    end.

(** [processingJobs.set(jobId, record)] *)
Definition publish (r : JobRecord) : M unit := fun s =>
  (Ok tt, {| published := published s ++ [r]; disk := disk s;
             totalPngs := totalPngs s; processedPngs := processedPngs s |}).

Definition onDisk (f : Disk -> Disk) : M unit := fun s =>
  (Ok tt, {| published := published s; disk := f (disk s);
             totalPngs := totalPngs s; processedPngs := processedPngs s |}).

(** [totalPngs++] *)
Definition incrTotal : M unit := fun s =>
  (Ok tt, {| published := published s; disk := disk s;
             totalPngs := totalPngs s + 1; processedPngs := processedPngs s |}).

(** [processedPngs++] *)
Definition incrProcessed : M unit := fun s =>
  (Ok tt, {| published := published s; disk := disk s;
             totalPngs := totalPngs s; processedPngs := processedPngs s + 1 |}).

(** ** File system calls *)

(** An [fs] call raises when the environment says so. *)
Definition fs (env : Env) (op : FsOp) : M unit := fun s =>
  match fs_fault env op with
  | Some msg => (Throw (FilesystemError msg), s)
  | None => (Ok tt, s)
  end.

Definition ancestors (p : path) : list path :=
  map (fun n => take n p) (seq 1 (length p)).

(** [fs.mkdirSync(p, { recursive: true })] *)
Definition mkdirSync (env : Env) (p : path) : M unit :=
  fs env (Mkdir p) ;;
  onDisk (fun d => {| dirs := list_to_set (ancestors p) ∪ dirs d; files := files d |}).

(** [fs.writeFileSync(p, data)] *)
Definition writeFileSync (env : Env) (p : path) (data : Buffer) : M unit :=
  fs env (WriteFile p) ;;
  onDisk (fun d => {| dirs := dirs d; files := <[p := data]> (files d) |}).

(** [fs.readFileSync(p)], of a file holding [data] *)
Definition readFileSync (env : Env) (p : path) (data : Buffer) : M Buffer :=
  fs env (ReadFile p) ;; mret data.

(** [fs.copyFileSync(src, dst)], of a file holding [data] *)
Definition copyFileSync (env : Env) (src dst : path) (data : Buffer) : M unit :=
  fs env (CopyFile src dst) ;;
  onDisk (fun d => {| dirs := dirs d; files := <[dst := data]> (files d) |}).

(** [fs.existsSync(p)] *)
Definition existsSync (p : path) (d : Disk) : bool :=
  bool_decide (p ∈ dirs d) || bool_decide (is_Some (files d !! p)).

(** what [fs.rmSync(p, { recursive: true, force: true })] leaves *)
Definition removeTree (p : path) (d : Disk) : Disk :=
  {| dirs := filter (fun q => ¬ p `prefix_of` q) (dirs d);
     files := filter (fun kv => ¬ p `prefix_of` kv.1) (files d) |}.

(** ** Counting and walking the extracted tree *)

(** One iteration of the loop of [countPngs(dir)], on the entry [item]. *)
Fixpoint countItem (env : Env) (dir : path) (item : node) {struct item} : M unit :=
  let itemPath := dir ++ [nodeName item] in
  fs env (Stat itemPath) ;;
  match item with
  | Directory _ items =>
      fs env (Readdir itemPath) ;;
      forM_ (countItem env itemPath) items
  | RegularFile name _ =>
      if isPng name then incrTotal else mret tt
  end.

(** [countPngs(dir)], where [items] is what [fs.readdirSync(dir)] lists *)
Definition countPngs (env : Env) (dir : path) (items : list node) : M unit :=
  fs env (Readdir dir) ;;
  forM_ (countItem env dir) items.

Definition tempDir_of (env : Env) (jobId : string) : path :=
  dirname env ++ ["temp"; jobId].
Definition extractDir_of (env : Env) (jobId : string) : path :=
  tempDir_of env jobId ++ ["extracted"].
Definition outputDir_of (env : Env) (jobId : string) : path :=
  tempDir_of env jobId ++ ["output"].
Definition outputZipPath_of (env : Env) (jobId : string) : path :=
  tempDir_of env jobId ++ ["converted.zip"].

(** The record published after a conversion. *)
Definition convertingRecord (env : Env) (jobId : string)
    (processedPngs totalPngs : Z) : JobRecord :=
  {| status := converting;
     progress := Some (convertingProgress processedPngs totalPngs);
     processedFiles := Some processedPngs;
     totalFiles := Some totalPngs;
     tempDir := tempDir_of env jobId;
     outputPath := Some (outputZipPath_of env jobId);
     downloadUrl := None;
     error := None |}.

(** The body of the [try] block of one PNG entry: read, convert, write, then
    count and publish.  (The garbage-collection hint and the 50 ms pause that
    follow change no state.) *)
Definition convertEntry (env : Env) (jobId : string)
    (sourcePath outputDir : path) (item : string) (data : Buffer) : M unit :=
  fileBuffer ← readFileSync env sourcePath data;
  webpBuffer ← settle (snd (convertToWebP env fileBuffer 90));
  let webpFileName := Path.parse_name item +:+ ".webp" in
  let webpPath := outputDir ++ [webpFileName] in
  writeFileSync env webpPath webpBuffer ;;
  incrProcessed ;;
  s ← getState;
  publish (convertingRecord env jobId (processedPngs s) (totalPngs s)).

(** One iteration of the loop of [processDirectory(sourceDir, outputDir)]. *)
Fixpoint processItem (env : Env) (jobId : string) (sourceDir outputDir : path)
    (item : node) {struct item} : M unit :=
  let sourcePath := sourceDir ++ [nodeName item] in
  let outputPath := outputDir ++ [nodeName item] in
  fs env (Stat sourcePath) ;;
  match item with
  | Directory _ items =>
      mkdirSync env outputPath ;;
      fs env (Readdir sourcePath) ;;
      forM_ (processItem env jobId sourcePath outputPath) items
  | RegularFile name data =>
      if isPng name then
        try_catch (convertEntry env jobId sourcePath outputDir name data)
                  (fun conversionError => mret tt)
      else copyFileSync env sourcePath outputPath data
  end.

(** [processDirectory(sourceDir, outputDir)], where [items] is what
    [fs.readdirSync(sourceDir)] lists *)
Definition processDirectory (env : Env) (jobId : string)
    (sourceDir outputDir : path) (items : list node) : M unit :=
  fs env (Readdir sourceDir) ;;
  forM_ (processItem env jobId sourceDir outputDir) items.

(** ** The orchestrator *)

(** The records of the stage transitions: [status], [progress], [tempDir]
    and [outputPath]. *)
Definition stageRecord (env : Env) (jobId : string) (st : Status) (pr : Z)
    : JobRecord :=
  {| status := st;
     progress := Some pr;
     processedFiles := None;
     totalFiles := None;
     tempDir := tempDir_of env jobId;
     outputPath := Some (outputZipPath_of env jobId);
     downloadUrl := None;
     error := None |}.

Definition completedRecord (env : Env) (jobId : string)
    (processedPngs totalPngs : Z) : JobRecord :=
  {| status := completed;
     progress := Some 100;
     processedFiles := Some processedPngs;
     totalFiles := Some totalPngs;
     tempDir := tempDir_of env jobId;
     outputPath := Some (outputZipPath_of env jobId);
     downloadUrl := Some ("/download/" +:+ jobId);
     error := None |}.

Definition failedRecord (env : Env) (jobId : string) (e : Exn) : JobRecord :=
  {| status := failed;
     progress := None;
     processedFiles := None;
     totalFiles := None;
     tempDir := tempDir_of env jobId;
     outputPath := None;
     downloadUrl := None;
     error := Some (message e) |}.

(** The [try] block of [processFilesAsync(jobId, fileBuffer)], stage by
    stage.  First the directories are made and the upload is extracted. *)
Definition extractStage (env : Env) (jobId : string) (fileBuffer : Buffer)
    : M (list node) :=
  publish (stageRecord env jobId extracting 0) ;;
  mkdirSync env (extractDir_of env jobId) ;;
  mkdirSync env (outputDir_of env jobId) ;;
  settle (raised ArchiveError (extractAllTo env fileBuffer)).

(** Then the pictures are counted, over the entries [items] that the
    extraction left, and the tree is walked, over what the walk finds there. *)
Definition convertStage (env : Env) (jobId : string) (items : list node)
    : M unit :=
  publish (stageRecord env jobId converting 10) ;;
  countPngs env (extractDir_of env jobId) items ;;
  processDirectory env jobId (extractDir_of env jobId) (outputDir_of env jobId)
    (foundByWalk env (extractDir_of env jobId) items).

(** Then the output directory is archived and the job is marked completed. *)
Definition zipStage (env : Env) (jobId : string) : M unit :=
  publish (stageRecord env jobId zipping 90) ;;
  s ← getState;
  zipBuffer ← settle (raised ArchiveError
                        (writeZip env (outputDir_of env jobId) (files (disk s))));
  onDisk (fun d => {| dirs := dirs d;
                      files := <[outputZipPath_of env jobId := zipBuffer]> (files d) |}) ;;
  s ← getState;
  publish (completedRecord env jobId (processedPngs s) (totalPngs s)).

Definition tryBlock (env : Env) (jobId : string) (fileBuffer : Buffer) : M unit :=
  items ← extractStage env jobId fileBuffer;
  convertStage env jobId items ;;
  zipStage env jobId.

(** The inner [try { if (fs.existsSync(tempDir)) fs.rmSync(tempDir, ...) }
    catch (cleanupError) { console.error(...) }]. *)
Definition cleanUp (env : Env) (jobId : string) : M unit :=
  let tempDir := tempDir_of env jobId in
  try_catch
    (s ← getState;
     if existsSync tempDir (disk s)
     then fs env (Rm tempDir) ;; onDisk (removeTree tempDir)
     else mret tt)
    (fun cleanupError => mret tt).

(** The [catch (error)] block of [processFilesAsync]. *)
Definition catchBlock (env : Env) (jobId : string) (error : Exn) : M unit :=
  publish (failedRecord env jobId error) ;;
  cleanUp env jobId.

Definition processFilesAsync (env : Env) (jobId : string) (fileBuffer : Buffer)
    : M unit :=
  try_catch (tryBlock env jobId fileBuffer) (catchBlock env jobId).

(** The state a job starts in, on disk [d]. *)
Definition startState (d : Disk) : JobState :=
  {| published := []; disk := d; totalPngs := 0; processedPngs := 0 |}.

(** The state one whole run of the job leaves. *)
Definition runJob (env : Env) (jobId : string) (fileBuffer : Buffer) (d : Disk)
    : JobState :=
  snd (processFilesAsync env jobId fileBuffer (startState d)).

(** ** The server: registry, pending callbacks, request handlers *)

Record Server := {
  (** [const processingJobs = new Map()] *)
  processingJobs : gmap string JobRecord;
  serverDisk : Disk;
  (** the [setImmediate] callbacks not yet run: [jobId] and [req.file.buffer] *)
  immediates : list (string * Buffer);
  (** the [setTimeout(..., 5000)] callbacks not yet run: [jobId] and
      [job.tempDir] *)
  timers : list (string * path)
}.

Definition emptyDisk : Disk := {| dirs := ∅; files := ∅ |}.

Definition initialServer : Server :=
  {| processingJobs := ∅; serverDisk := emptyDisk; immediates := []; timers := [] |}.

(** [POST /convert-folder-structure], handled when [Date.now()] reads [now]:
    the job id of the response, or [None] for the 400 of a request without
    file. *)
Definition postConvertFolderStructure (now : Z) (file : option Buffer)
    (srv : Server) : option string * Server :=
  match file with
  | None => (None, srv)
  | Some buffer =>
      let jobId : string := pretty now in
      (Some jobId,
       {| processingJobs := processingJobs srv;
          serverDisk := serverDisk srv;
          immediates := immediates srv ++ [(jobId, buffer)];
          timers := timers srv |})
  end.

(** [GET /status/:jobId]: the record, or [None] for the 404. *)
Definition getStatus (jobId : string) (srv : Server) : option JobRecord :=
  processingJobs srv !! jobId.

Inductive DownloadResponse :=
| FileNotReady                    (* 404 *)
| Archive (zipBuffer : Buffer)    (* 200 *)
| DownloadFailed.                 (* 500 *)

(** [GET /download/:jobId] *)
Definition getDownload (env : Env) (jobId : string) (srv : Server)
    : DownloadResponse * Server :=
  match processingJobs srv !! jobId with
  | None => (FileNotReady, srv)
  | Some job =>
      match status job with
      | completed =>
          match outputPath job with
          | Some p =>
              match fs_fault env (ReadFile p), files (serverDisk srv) !! p with
              | None, Some zipBuffer =>
                  (Archive zipBuffer,
                   {| processingJobs := processingJobs srv;
                      serverDisk := serverDisk srv;
                      immediates := immediates srv;
                      timers := timers srv ++ [(jobId, tempDir job)] |})
              | _, _ => (DownloadFailed, srv)
              end
          | None => (DownloadFailed, srv)
          end
      | _ => (FileNotReady, srv)
      end
  end.

(** The registry after the successive [processingJobs.set(jobId, r)]. *)
Definition setAll (jobId : string) (rs : list JobRecord)
    (jobs : gmap string JobRecord) : gmap string JobRecord :=
  foldl (fun m r => <[jobId := r]> m) jobs rs.

(** The oldest [setImmediate] callback runs: the job of that submission,
    from its first statement to its last.  Its records reach the registry one
    by one, in the order of [published]; the callbacks that run during its
    [await]s set other keys of the registry and write under other temp
    directories, unless they belong to a job with the same id, and what such a
    job leaves under the extraction directory reaches this one through
    [foundByWalk]. *)
Definition runImmediate (env : Env) (srv : Server) : Server :=
  match immediates srv with
  | [] => srv
  | (jobId, buffer) :: rest =>
      let s := runJob env jobId buffer (serverDisk srv) in
      {| processingJobs := setAll jobId (published s) (processingJobs srv);
         serverDisk := disk s;
         immediates := rest;
         timers := timers srv |}
  end.

(** The oldest clean-up timer fires, five seconds after a download:
    [processingJobs.delete(jobId)], then
    [if (fs.existsSync(job.tempDir)) fs.rmSync(job.tempDir, ...)].  The
    callback has no [try] and the program installs no handler for uncaught
    exceptions: an exception of [fs.rmSync] leaves the callback and ends the
    process, which is the [Throw] here. *)
Definition runTimer (env : Env) (srv : Server) : result Server :=
  match timers srv with
  | [] => Ok srv
  | (jobId, tempDir) :: rest =>
      if existsSync tempDir (serverDisk srv)
      then match fs_fault env (Rm tempDir) with
           | Some msg => Throw (FilesystemError msg)
           | None =>
               Ok {| processingJobs := delete jobId (processingJobs srv);
                     serverDisk := removeTree tempDir (serverDisk srv);
                     immediates := immediates srv;
                     timers := rest |}
           end
      else Ok {| processingJobs := delete jobId (processingJobs srv);
                 serverDisk := serverDisk srv;
                 immediates := immediates srv;
                 timers := rest |}
  end.

(** What can happen to the server between two observations. *)
Inductive Event :=
| Submit (now : Z) (file : option Buffer)
| Download (jobId : string)
| Immediate
| Timer.

(** The server after an event, or the exception that nothing catches. *)
Definition step (env : Env) (ev : Event) (srv : Server) : result Server :=
  match ev with
  | Submit now file => Ok (snd (postConvertFolderStructure now file srv))
  | Download jobId => Ok (snd (getDownload env jobId srv))
  | Immediate => Ok (runImmediate env srv)
  | Timer => runTimer env srv
  end.

(** The events in turn, as long as the process lives. *)
Definition steps (env : Env) (evs : list Event) (srv : Server) : result Server :=
  foldl (fun r ev => match r with
                     | Ok srv' => step env ev srv'
                     | Throw e => Throw e
                     end) (Ok srv) evs.

(** ** Counting over the tree *)

(** The entries the walk classifies as convertible: regular files whose
    extension is [.png] in any case. *)
Fixpoint convertibleIn (item : node) : nat :=
  match item with
  | Directory _ items => list_sum (map convertibleIn items)
  | RegularFile name _ => if isPng name then 1 else 0
  end.

Definition convertible (items : list node) : nat :=
  list_sum (map convertibleIn items).

(** What the [try] block of a PNG entry settles to, before counting. *)
Definition attempt (env : Env) (sourcePath outputDir : path) (item : string)
    (data : Buffer) : result Buffer :=
  match fs_fault env (ReadFile sourcePath) with
  | Some msg => Throw (FilesystemError msg)
  | None =>
      match snd (convertToWebP env data 90) with
      | Throw e => Throw e
      | Ok webpBuffer =>
          match fs_fault env (WriteFile (outputDir ++ [Path.parse_name item +:+ ".webp"])) with
          | Some msg => Throw (FilesystemError msg)
          | None => Ok webpBuffer
          end
      end
  end.

Definition attemptFails (env : Env) (sourcePath outputDir : path)
    (item : string) (data : Buffer) : bool :=
  match attempt env sourcePath outputDir item data with
  | Ok _ => false
  | Throw _ => true
  end.

(** The convertible entries whose conversion fails, under [sourceDir]
    mirrored to [outputDir]. *)
Fixpoint failingIn (env : Env) (sourceDir outputDir : path) (item : node)
    {struct item} : nat :=
  let sourcePath := sourceDir ++ [nodeName item] in
  let outputPath := outputDir ++ [nodeName item] in
  match item with
  | Directory _ items =>
      list_sum (map (failingIn env sourcePath outputPath) items)
  | RegularFile name data =>
      if isPng name && attemptFails env sourcePath outputDir name data
      then 1 else 0
  end%nat.

Definition failing (env : Env) (sourceDir outputDir : path)
    (items : list node) : nat :=
  list_sum (map (failingIn env sourceDir outputDir) items).

(** The states in which a job is still running. *)
Definition nonTerminal (st : Status) : bool :=
  match st with
  | extracting | converting | zipping => true
  | completed | failed => false
  end.

(** [n] levels from [q] down in steps of 10 *)
Definition levelsFrom (q : Z) (n : nat) : list Z :=
  map (fun i => q - 10 * Z.of_nat i) (seq 0 n).

(** What a search started at [q] leaves: the levels tried and the way the
    promise settled. *)
Definition searchSpec (env : Env) (buffer : Buffer) (q : Z)
    (out : list Z * result Buffer) : Prop :=
  let levels := fst out in
  levels = levelsFrom q (length levels) /\
  Forall (Z.le 10) levels /\
  (forall i l, levels !! i = Some l -> (S i < length levels)%nat ->
               oversize env buffer l) /\
  match snd out with
  | Ok webpBuffer =>
      exists l, last levels = Some l /\
                sharp_webp env buffer l = Done webpBuffer /\
                byteLength webpBuffer <= maxSize
  | Throw CompressionFailed =>
      Forall (oversize env buffer) levels /\
      q - 10 * Z.of_nat (length levels) < 10
  | Throw (CodecError msg) =>
      exists l, last levels = Some l /\ sharp_webp env buffer l = Rejects msg
  | Throw _ => False
  end.

(** ** What a run publishes *)

(** The records of [n] successive conversions, the counter starting above
    [from]. *)
Definition convertingRecords (env : Env) (jobId : string) (from total : Z)
    (n : nat) : list JobRecord :=
  map (fun k => convertingRecord env jobId (from + Z.of_nat k) total) (seq 1 n).

(** The walk took the state from [s] to [s'] with [n] conversions. *)
Definition walked (env : Env) (jobId : string) (n : nat) (s s' : JobState)
    : Prop :=
  totalPngs s' = totalPngs s /\
  processedPngs s' = processedPngs s + Z.of_nat n /\
  published s' =
    published s ++ convertingRecords env jobId (processedPngs s) (totalPngs s) n.

(** The ways a run can end, after [n] conversions counted against [total]. *)
Inductive Ending (env : Env) (jobId : string) (n total : nat)
    : list JobRecord -> Prop :=
| EndsFailed e :
    Ending env jobId n total [failedRecord env jobId e]
| EndsFailedZipping e :
    Ending env jobId n total
      [stageRecord env jobId zipping 90; failedRecord env jobId e]
| EndsCompleted :
    Ending env jobId n total
      [stageRecord env jobId zipping 90;
       completedRecord env jobId (Z.of_nat n) (Z.of_nat total)].

(** The sequences of records a run can publish, with [n] conversions against
    a count of [total] that [fits] relates. *)
Inductive Published (env : Env) (jobId : string) (fits : nat -> nat -> Prop)
    : list JobRecord -> Prop :=
| FailsExtracting e :
    Published env jobId fits
      [stageRecord env jobId extracting 0; failedRecord env jobId e]
| Converts n total ending :
    fits n total ->
    Ending env jobId n total ending ->
    Published env jobId fits
      (stageRecord env jobId extracting 0 ::
       stageRecord env jobId converting 10 ::
       convertingRecords env jobId 0 (Z.of_nat total) n ++ ending).

(** How the counters of a run on [fileBuffer] are related: the conversions
    are among the convertible entries the walk finds, and once a conversion is
    made the total is the number of convertible entries the count found. *)
Definition withinFound (env : Env) (jobId : string) (fileBuffer : Buffer)
    (n total : nat) : Prop :=
  exists items,
    extractAllTo env fileBuffer = Done items /\
    (n <= convertible (foundByWalk env (extractDir_of env jobId) items))%nat /\
    (n = 0%nat \/ total = convertible items).

(** The walk of the job finds what its count found: no other job writes
    under the job's extraction directory while it runs. *)
Definition walksAlone (env : Env) (jobId : string) : Prop :=
  forall items, foundByWalk env (extractDir_of env jobId) items = items.

(** The [progress] values of the records published while the job runs. *)
Definition runningProgress (rs : list JobRecord) : list Z :=
  omap progress (filter (fun r => nonTerminal (status r) = true) rs).

(** The count took the state from [s] to [s'] with [k] files counted. *)
Definition counted (k : nat) (s s' : JobState) : Prop :=
  published s' = published s /\
  disk s' = disk s /\
  processedPngs s' = processedPngs s /\
  totalPngs s' = totalPngs s + Z.of_nat k.

(** What the count does on one entry: it counts at most the convertible
    files of the entry, and all of them when it is left without exception. *)
Definition countSpec (env : Env) (item : node) : Prop :=
  forall dir s,
    exists k,
      (k <= convertibleIn item)%nat /\
      counted k s (snd (countItem env dir item s)) /\
      (fst (countItem env dir item s) = Ok tt -> k = convertibleIn item).

(** What the walk does on one entry, and how many conversions it makes: at
    most the convertible files of the entry, and all but the failing ones
    when the entry is left without exception. *)
Definition entrySpec (env : Env) (jobId : string) (item : node) : Prop :=
  forall sourceDir outputDir s,
    exists n,
      (n <= convertibleIn item)%nat /\
      walked env jobId n s (snd (processItem env jobId sourceDir outputDir item s)) /\
      (fst (processItem env jobId sourceDir outputDir item s) = Ok tt ->
       (n + failingIn env sourceDir outputDir item = convertibleIn item)%nat).

(** [scaled] gives what the binary64 operations give, for every
    [1 <= processedPngs <= totalPngs <= n]. *)
Definition agreesWithBinary64 (n : nat) : bool :=
  forallb (fun t =>
    forallb (fun p =>
      match Double.b64_scaled (Z.of_nat p) (Z.of_nat t) with
      | Some v => v =? scaled (Z.of_nat p) (Z.of_nat t)
      | None => false
      end) (seq 1 t)) (seq 1 n).





(** The disk after the clean-up of a failed job. *)
Definition cleanedUp (env : Env) (jobId : string) (d : Disk) : Disk :=
  if existsSync (tempDir_of env jobId) d
  then match fs_fault env (Rm (tempDir_of env jobId)) with
       | None => removeTree (tempDir_of env jobId) d
       | Some _ => d
       end
  else d.

(** ** Sample archives *)

(** the first bytes of a WebP file *)
Definition riff : Buffer := [Byte.x52; Byte.x49; Byte.x46; Byte.x46].

(** An environment without file system faults, whose codec rejects the empty
    buffer and whose archive library rejects the empty upload and finds
    [entries] in any other; no other job writes where a job walks. *)
Definition sampleEnv (entries : list node) : Env :=
  {| dirname := ["srv"];
     sharp_webp := fun buffer quality =>
       match buffer with
       | [] => Rejects "Input Buffer is empty"
       | _ => Done riff
       end;
     extractAllTo := fun fileBuffer =>
       match fileBuffer with
       | [] => Rejects "Invalid or unsupported zip format. No END header found"
       | _ => Done entries
       end;
     writeZip := fun _ _ => Done [Byte.x50; Byte.x4b];
     fs_fault := fun _ => None;
     foundByWalk := fun _ items => items |}.

(** [env] for a job that is not alone: its walk finds [found] under the
    extraction directory. *)
Definition amongOthers (env : Env) (found : list node) : Env :=
  {| dirname := dirname env;
     sharp_webp := sharp_webp env;
     extractAllTo := extractAllTo env;
     writeZip := writeZip env;
     fs_fault := fs_fault env;
     foundByWalk := fun _ _ => found |}.

(** [env] with a file system on which every [fs.rmSync] raises. *)
Definition lockedDisk (env : Env) (msg : string) : Env :=
  {| dirname := dirname env;
     sharp_webp := sharp_webp env;
     extractAllTo := extractAllTo env;
     writeZip := writeZip env;
     fs_fault := fun op => match op with
                           | Rm _ => Some msg
                           | _ => fs_fault env op
                           end;
     foundByWalk := foundByWalk env |}.

(** some upload *)
Definition upload : Buffer := [Byte.x50; Byte.x4b; Byte.x03; Byte.x04].

(** an archive of one good picture, one empty file named as a picture, a
    text file and a folder with one more picture *)
Definition sampleEntries : list node :=
  [RegularFile "a.png" [Byte.x89; Byte.x50];
   RegularFile "bad.png" [];
   RegularFile "notes.txt" [Byte.x68; Byte.x69];
   Directory "sub" [RegularFile "c.PNG" [Byte.x89; Byte.x50]]].

(** ** Renaming by the batch endpoints *)

(** [p.replace(/\.png$/i, ".webp")]: a name that ends in [.png], in any case
    of the letters, gets [.webp] in its place; any other name stays. *)
Definition replacePngSuffix (p : string) : string :=
  let n := String.length p in
  if ((4 <=? n)%nat && String.eqb (Path.toLowerCase (substring (n - 4) 4 p)) ".png")%bool
  then substring 0 (n - 4) p +:+ ".webp"
  else p.

(** ** The batch endpoint *)

(** A value of the request body as [express.json()] parses it. *)
#[warning="-register-all"]
Inductive Json :=
| JNull
| JBool (b : bool)
| JNumber (q : Q)
| JString (s : string)
| JArray (elements : list Json)
| JObject (members : list (string * Json)).

(** [value.path] and [value.data] for a [value] that is not [null]: the
    member of an object, the last one of that name as the parser keeps it,
    and [None], for [undefined], on an object without it and on a boolean, a
    number, a string or an array. *)
Definition member (key : string) (value : Json) : option Json :=
  match value with
  | JObject members =>
      snd <$> List.find (fun m => String.eqb (fst m) key) (rev members)
  | _ => None
  end.

(** What the handler takes from Node. *)
Record Runtime := {
  (** [Buffer.from(data, "base64")] for a string: it never throws *)
  fromBase64 : string -> Buffer;
  (** [Buffer.from(data, "base64")] for an array or an object: the bytes of
      an array or of an array-like object, and [None] for the [TypeError] on
      any other object *)
  fromObject : Json -> option Buffer;
  (** [buffer.toString("base64")] *)
  toBase64 : Buffer -> string;
  (** the message of the [TypeError] for reading the given property of
      [null] *)
  cannotRead : string -> string
}.

(** an element of [convertedFiles]: [{ path, data, size }] *)
Record ConvertedFile := {
  convertedPath : string;
  convertedData : string;
  convertedSize : Z
}.

(** [Buffer.from(file.data, "base64")], [None] for its [TypeError], which
    [undefined], [null], a boolean and a number get. *)
Definition bufferFrom (rt : Runtime) (data : option Json) : option Buffer :=
  match data with
  | Some (JString data) => Some (fromBase64 rt data)
  | Some (JArray elements) => fromObject rt (JArray elements)
  | Some (JObject members) => fromObject rt (JObject members)
  | _ => None
  end.

(** The [try] block of one iteration of the loop of [POST /convert-batch]:
    the object it pushes, or [None] when it throws: on reading [file.data] of
    [null], in [Buffer.from], in [convertToWebP], or on [file.path.replace]
    for a path that is not a string. *)
Definition batchEntry (env : Env) (rt : Runtime) (file : Json)
    : option ConvertedFile :=
  match file with
  | JNull => None
  | _ =>
      match bufferFrom rt (member "data" file) with
      | None => None
      | Some buffer =>
          match snd (convertToWebP env buffer 90) with
          | Throw _ => None
          | Ok webpBuffer =>
              match member "path" file with
              | Some (JString path) =>
                  Some {| convertedPath := replacePngSuffix path;
                          convertedData := toBase64 rt webpBuffer;
                          convertedSize := byteLength webpBuffer |}
              | _ => None
              end
          end
      end
  end.

(** The loop: each file is converted and pushed, or its [catch] block logs
    [file.path] and the loop goes on; reading [file.path] of [null] throws in
    the [catch] block itself, which ends the loop with that [TypeError]
    ([None]). *)
Fixpoint convertBatchFiles (env : Env) (rt : Runtime) (files : list Json)
    (convertedFiles : list ConvertedFile) : option (list ConvertedFile) :=
  match files with
  | [] => Some convertedFiles
  | file :: rest =>
      match batchEntry env rt file with
      | Some entry => convertBatchFiles env rt rest (convertedFiles ++ [entry])
      | None =>
          match file with
          | JNull => None
          | _ => convertBatchFiles env rt rest convertedFiles
          end
      end
  end.

Inductive BatchResponse :=
| InvalidFilesData                                              (* 400 *)
| BatchConverted (files : list ConvertedFile) (note : string)   (* 200 *)
| BatchFailed (errorMessage : string).                          (* 500 *)

(** [POST /convert-batch], for [req.body.files], [None] when the body has no
    such member. *)
Definition postConvertBatch (env : Env) (rt : Runtime) (files : option Json)
    : BatchResponse :=
  match files with
  | Some (JArray files) =>
      match convertBatchFiles env rt files [] with
      | Some convertedFiles =>
          BatchConverted convertedFiles
            ("Converted " +:+ pretty (length convertedFiles) +:+ " files")
      | None => BatchFailed (cannotRead rt "path")
      end
  | _ => InvalidFilesData
  end.


(** A runtime whose base64 decoding gives two bytes for every string. *)
Definition sampleRuntime : Runtime :=
  {| fromBase64 := fun _ => [Byte.x89; Byte.x50];
     fromObject := fun _ => None;
     toBase64 := fun _ => "UklGRg==";
     cannotRead := fun key =>
       "Cannot read properties of null (reading '" +:+ key +:+ "')" |}.

(** ** The synchronous folder endpoint *)

(** One iteration of the loop of [processDirectory] in the synchronous
    [POST /convert-folder-structure]: no [try] around the conversion. *)
Fixpoint processItemSync (env : Env) (sourceDir outputDir : path)
    (item : node) {struct item} : M unit :=
  let sourcePath := sourceDir ++ [nodeName item] in
  let outputPath := outputDir ++ [nodeName item] in
  fs env (Stat sourcePath) ;;
  match item with
  | Directory _ items =>
      mkdirSync env outputPath ;;
      fs env (Readdir sourcePath) ;;
      forM_ (processItemSync env sourcePath outputPath) items
  | RegularFile name data =>
      if isPng name then
        fileBuffer ← readFileSync env sourcePath data;
        webpBuffer ← settle (snd (convertToWebP env fileBuffer 90));
        let webpFileName := Path.parse_name name +:+ ".webp" in
        writeFileSync env (outputDir ++ [webpFileName]) webpBuffer
      else copyFileSync env sourcePath outputPath data
  end.

Definition processDirectorySync (env : Env) (sourceDir outputDir : path)
    (items : list node) : M unit :=
  fs env (Readdir sourceDir) ;;
  forM_ (processItemSync env sourceDir outputDir) items.

(** The inner [try] block: extract, walk, archive. *)
Definition convertFolder (env : Env) (jobId : string) (fileBuffer : Buffer)
    : M Buffer :=
  items ← settle (raised ArchiveError (extractAllTo env fileBuffer));
  processDirectorySync env (extractDir_of env jobId) (outputDir_of env jobId) items ;;
  s ← getState;
  settle (raised ArchiveError
            (writeZip env (outputDir_of env jobId) (files (disk s)))).

(** The [finally] block: [if (fs.existsSync(tempDir)) fs.rmSync(tempDir, ...)],
    with no [try] of its own. *)
Definition removeTempDir (env : Env) (jobId : string) : M unit :=
  s ← getState;
  if existsSync (tempDir_of env jobId) (disk s)
  then fs env (Rm (tempDir_of env jobId)) ;; onDisk (removeTree (tempDir_of env jobId))
  else mret tt.

Inductive FolderResponse :=
| NoZipFile                        (* 400 *)
| ZipSent (zipBuffer : Buffer)     (* 200 *)
| FolderError (msg : string).      (* 500 *)

(** The synchronous [POST /convert-folder-structure], handled when
    [Date.now()] reads [now], on disk [d]: the first response sent and the
    disk left.  An exception of the [finally] block takes the place of the one
    of the [try] block; after the archive is sent it changes nothing of the
    response. *)
Definition postConvertFolderStructureSync (env : Env) (now : Z)
    (file : option Buffer) (d : Disk) : FolderResponse * Disk :=
  match file with
  | None => (NoZipFile, d)
  | Some fileBuffer =>
      let jobId : string := pretty now in
      match (mkdirSync env (extractDir_of env jobId) ;;
             mkdirSync env (outputDir_of env jobId)) (startState d) with
      | (Throw e, s) => (FolderError (message e), disk s)
      | (Ok _, s) =>
          match convertFolder env jobId fileBuffer s with
          | (Ok zipBuffer, s1) =>
              (ZipSent zipBuffer, disk (snd (removeTempDir env jobId s1)))
          | (Throw e, s1) =>
              match removeTempDir env jobId s1 with
              | (Ok _, s2) => (FolderError (message e), disk s2)
              | (Throw e2, s2) => (FolderError (message e2), disk s2)
              end
          end
      end
  end.

(** ** The command-line converter of [src/index.js] *)

(** The [else] branch of [convertWithQuality]: make the directory of the
    output if it is missing, then [fs.writeFile], whose error is only logged. *)
Definition saveOutput (env : Env) (outputPath : path) (data : Buffer) : M unit :=
  let outputDirPath := removelast outputPath in
  s ← getState;
  (if existsSync outputDirPath (disk s) then mret tt
   else mkdirSync env outputDirPath) ;;
  try_catch (writeFileSync env outputPath data) (fun err => mret tt).

(** [convertWithQuality(inputPath, outputPath, quality)], for an input file
    holding [input]. *)
Equations? convertWithQuality (env : Env) (input : Buffer) (outputPath : path)
    (quality : Z) : M unit by wf (Z.to_nat quality) lt :=
convertWithQuality env input outputPath quality with Z_lt_dec quality 10 := {
  | left _ => mret tt
  | right _ with sharp_webp env input quality := {
      | Rejects msg => settle (Throw (CodecError msg))
      | Done data with Z_lt_dec maxSize (byteLength data) := {
          | left _ => convertWithQuality env input outputPath (quality - 10)
          | right _ => saveOutput env outputPath data } } }.
Proof. lia. Qed.

(** One iteration of the loop of [processDirectory] in [src/index.js]. *)
Fixpoint processItemCli (env : Env) (currentInputDir currentOutputDir : path)
    (item : node) {struct item} : M unit :=
  let inputPath := currentInputDir ++ [nodeName item] in
  fs env (Stat inputPath) ;;
  match item with
  | Directory name items =>
      let newOutputDir := currentOutputDir ++ [name] in
      fs env (Readdir inputPath) ;;
      forM_ (processItemCli env inputPath newOutputDir) items
  | RegularFile name data =>
      if isPng name then
        let outputFilename := Path.parse_name name +:+ ".webp" in
        convertWithQuality env data (currentOutputDir ++ [outputFilename]) 90
      else mret tt
  end.

Definition processDirectoryCli (env : Env) (currentInputDir currentOutputDir : path)
    (items : list node) : M unit :=
  fs env (Readdir currentInputDir) ;;
  forM_ (processItemCli env currentInputDir currentOutputDir) items.

(** ** What is left alone *)

(** The files outside [root] are the same on [d'] as on [d]. *)
Definition untouchedOutside (root : path) (d d' : Disk) : Prop :=
  forall p, ~ root `prefix_of` p -> files d' !! p = files d !! p.

(** No file of [d] is missing on [d']. *)
Definition keepsFiles (d d' : Disk) : Prop :=
  forall p, is_Some (files d !! p) -> is_Some (files d' !! p).

(** The statement writes under [root] only, and removes nothing. *)
Definition Confined {A} (root : path) (m : M A) : Prop :=
  forall s,
    untouchedOutside root (disk s) (disk (snd (m s))) /\
    keepsFiles (disk s) (disk (snd (m s))).

(** Every file of [d'] is as on [d], or is a picture within the ceiling,
    named [.webp] after a convertible entry. *)
Definition onlyPictures (d d' : Disk) : Prop :=
  forall p,
    files d' !! p = files d !! p \/
    exists name webpBuffer,
      isPng name = true /\
      last p = Some (Path.parse_name name +:+ ".webp") /\
      files d' !! p = Some webpBuffer /\
      byteLength webpBuffer <= maxSize.

(** * Part II: properties *)

(** ** The quality search *)

Section QualitySearch.

Variable env : Env.
Variable buffer : Buffer.

Lemma levelsFrom_cons q n : levelsFrom q (S n) = q :: levelsFrom (q - 10) n.
Proof.
  unfold levelsFrom. cbn [seq map]. f_equal; [lia|].
  rewrite <- seq_shift, map_map. apply map_ext. intros i. lia.
Qed.

Lemma levelsFrom_one q : [q] = levelsFrom q 1.
Proof. unfold levelsFrom. cbn. f_equal. lia. Qed.

Lemma convertToWebP_searchSpec q :
  searchSpec env buffer q (convertToWebP env buffer q).
Proof.
  funelim (convertToWebP env buffer q).
  - unfold searchSpec; cbn. repeat split; auto; try lia.
  - unfold searchSpec; cbn [fst snd length].
    split; [apply levelsFrom_one|]. split; [repeat constructor; lia|].
    split; [intros i l0 _ Hlen; cbn in Hlen; lia|].
    exists quality. split; [reflexivity | assumption].
  - destruct H as (Hlv & Hge & Hov & Hres).
    set (r := convertToWebP env buffer (quality - 10)) in *.
    unfold searchSpec; cbn [fst snd].
    assert (Hq : oversize env buffer quality) by (exists webpBuffer; auto).
    repeat split.
    + cbn [length]. rewrite levelsFrom_cons. f_equal. exact Hlv.
    + constructor; [lia | exact Hge].
    + intros [|i] l1 Hl1 Hlen; cbn in Hl1, Hlen.
      * inversion Hl1; subst. exact Hq.
      * apply (Hov i l1 Hl1). lia.
    + destruct (snd r) as [b | [ | msg | msg | msg]]; try contradiction.
      * destruct Hres as (l1 & Hlast & Hs & Hb). exists l1. repeat split; auto.
        destruct (fst r); [discriminate | exact Hlast].
      * destruct Hres as [Hall Hlt]. split; [constructor; auto|].
        cbn [length]. lia.
      * destruct Hres as (l1 & Hlast & Hs). exists l1. split; auto.
        destruct (fst r); [discriminate | exact Hlast].
  - unfold searchSpec; cbn [fst snd length].
    split; [apply levelsFrom_one|]. split; [repeat constructor; lia|].
    split; [intros i l0 _ Hlen; cbn in Hlen; lia|].
    exists quality. repeat split; auto. lia.
Qed.

End QualitySearch.

Section QualityLadder.

Variable env : Env.
Variable buffer : Buffer.

Lemma levelsFrom_length q n : length (levelsFrom q n) = n.
Proof. unfold levelsFrom. rewrite length_map. apply length_seq. Qed.

Lemma levelsFrom_lookup q n i :
  (i < n)%nat -> levelsFrom q n !! i = Some (q - 10 * Z.of_nat i).
Proof.
  intros Hi. unfold levelsFrom. rewrite list_lookup_fmap.
  rewrite lookup_seq_lt by exact Hi. reflexivity.
Qed.

Lemma levelsFrom_take q n m :
  (n <= m)%nat -> levelsFrom q n = take n (levelsFrom q m).
Proof.
  intros Hnm. unfold levelsFrom.
  rewrite <- fmap_take, take_seq. f_equal. f_equal. lia.
Qed.

(** A search from 90 never goes past the ninth level. *)
Lemma levels_at_most_nine :
  (length (fst (convertToWebP env buffer 90)) <= 9)%nat.
Proof.
  destruct (convertToWebP_searchSpec env buffer 90) as (Hlv & Hge & _).
  set (levels := fst (convertToWebP env buffer 90)) in *.
  destruct (length levels) as [|n] eqn:Hn; [lia|].
  assert (Hl : levels !! n = Some (90 - 10 * Z.of_nat n)).
  { rewrite Hlv. apply levelsFrom_lookup. lia. }
  rewrite Forall_lookup in Hge. specialize (Hge _ _ Hl). cbn in Hge. lia.
Qed.

(** The levels tried are an initial part of the ladder. *)
Lemma levels_initial :
  exists n, (n <= 9)%nat /\ fst (convertToWebP env buffer 90) = take n qualityLadder.
Proof.
  pose proof levels_at_most_nine as Hnine.
  destruct (convertToWebP_searchSpec env buffer 90) as (Hlv & _).
  exists (length (fst (convertToWebP env buffer 90))). split; [exact Hnine|].
  rewrite Hlv at 1. apply (levelsFrom_take 90 _ 9 Hnine).
Qed.

(** When the search gives up, the whole ladder was tried in vain. *)
Lemma levels_exhausted :
  snd (convertToWebP env buffer 90) = Throw CompressionFailed ->
  fst (convertToWebP env buffer 90) = qualityLadder /\
  Forall (oversize env buffer) qualityLadder.
Proof.
  intros Hfail. pose proof levels_at_most_nine as Hnine.
  destruct (convertToWebP_searchSpec env buffer 90) as (Hlv & _ & _ & Hres).
  rewrite Hfail in Hres. destruct Hres as [Hall Hlt].
  set (levels := fst (convertToWebP env buffer 90)) in *.
  assert (Hlen : length levels = 9%nat) by lia.
  assert (Heq : levels = qualityLadder) by (rewrite Hlv, Hlen; reflexivity).
  split; [exact Heq|]. rewrite <- Heq. exact Hall.
Qed.

(** C3: the codec is called at 90 first and then at 80, 70, ... in steps of
    10, never below 10: the levels tried are the first [n] of the nine levels
    from 90 down to 10, with [n] at least one.  Every level before the last
    gave a buffer above the ceiling, so the search stops at the first level
    that did not.  What the search settles to is decided by the last level:
    its buffer if that meets the ceiling, the error of the codec if the codec
    rejected the input there, and [CompressionFailed] only if the last level
    is 10, the ninth, and its buffer is above the ceiling too. *)
Theorem convertToWebP_quality_ladder :
  let levels := fst (convertToWebP env buffer 90) in
  let settled := snd (convertToWebP env buffer 90) in
  exists n lastLevel,
    (1 <= n <= 9)%nat /\
    levels = take n qualityLadder /\
    head levels = Some 90 /\
    last levels = Some lastLevel /\
    (forall i l, levels !! i = Some l -> (S i < n)%nat -> oversize env buffer l) /\
    match sharp_webp env buffer lastLevel with
    | Done webpBuffer =>
        if byteLength webpBuffer <=? maxSize
        then settled = Ok webpBuffer
        else n = 9%nat /\ lastLevel = 10 /\ settled = Throw CompressionFailed
    | Rejects msg => settled = Throw (CodecError msg)
    end.
Proof.
  intros levels settled.
  destruct (convertToWebP_searchSpec env buffer 90) as (Hlv & Hge & Hov & Hres).
  pose proof levels_at_most_nine as Hnine.
  fold levels in Hlv, Hge, Hov, Hres, Hnine. fold settled in Hres.
  assert (Hpos : (1 <= length levels)%nat).
  { destruct settled as [b | [ | msg | msg | msg]]; try contradiction.
    - destruct Hres as (l & Hl & _). destruct levels; [discriminate | cbn; lia].
    - destruct Hres as [_ Hlt]. lia.
    - destruct Hres as (l & Hl & _). destruct levels; [discriminate | cbn; lia]. }
  assert (Hl : levels !! (length levels - 1)%nat =
               Some (90 - 10 * Z.of_nat (length levels - 1))).
  { pose proof (levelsFrom_lookup 90 (length levels) (length levels - 1)) as H.
    rewrite <- Hlv in H. apply H. lia. }
  assert (Hlast : last levels = Some (90 - 10 * Z.of_nat (length levels - 1))).
  { rewrite last_lookup.
    replace (Nat.pred (length levels)) with (length levels - 1)%nat by lia.
    exact Hl. }
  exists (length levels), (90 - 10 * Z.of_nat (length levels - 1)).
  split; [lia|]. split.
  { etransitivity; [exact Hlv|]. apply (levelsFrom_take 90 _ 9 Hnine). }
  split.
  { etransitivity; [exact (f_equal head Hlv)|].
    destruct (length levels); [lia | reflexivity]. }
  split; [exact Hlast|]. split; [exact Hov|].
  destruct settled as [b | [ | msg | msg | msg]]; try contradiction.
  - destruct Hres as (l & Hl' & Hs & Hb). rewrite Hlast in Hl'. injection Hl' as <-.
    rewrite Hs. destruct (Z.leb_spec (byteLength b) maxSize); [reflexivity | lia].
  - destruct Hres as [Hall Hlt].
    assert (Hn : length levels = 9%nat) by lia.
    rewrite Forall_lookup in Hall.
    destruct (Hall _ _ Hl) as (b & Hs & Hb). rewrite Hs.
    destruct (Z.leb_spec (byteLength b) maxSize); [lia|].
    split; [exact Hn|]. split; [rewrite Hn; reflexivity | reflexivity].
  - destruct Hres as (l & Hl' & Hs). rewrite Hlast in Hl'. injection Hl' as <-.
    rewrite Hs. reflexivity.
Qed.

(** C2, as amended: the search returns a buffer within the ceiling, or
    throws: [CompressionFailed] when every level of the ladder gave a buffer
    above the ceiling, and otherwise the error with which the codec rejected
    the input at one of the levels.  No buffer above the ceiling is ever
    returned. *)
Theorem convertToWebP_within_ceiling :
  match snd (convertToWebP env buffer 90) with
  | Ok webpBuffer => byteLength webpBuffer <= maxSize
  | Throw CompressionFailed => Forall (oversize env buffer) qualityLadder
  | Throw (CodecError msg) =>
      exists quality,
        quality ∈ qualityLadder /\ sharp_webp env buffer quality = Rejects msg
  | Throw _ => False
  end.
Proof.
  destruct (convertToWebP_searchSpec env buffer 90) as (_ & _ & _ & Hres).
  pose proof levels_exhausted as Hex.
  destruct levels_initial as (n & _ & Hn).
  destruct (snd (convertToWebP env buffer 90)) as [b | [ | msg | msg | msg]];
    try contradiction.
  - destruct Hres as (l & _ & _ & Hb). exact Hb.
  - apply Hex. reflexivity.
  - destruct Hres as (l & Hlast & Hs). exists l. split; [|exact Hs].
    rewrite Hn, last_lookup in Hlast.
    apply list_elem_of_lookup_2 in Hlast.
    apply elem_of_take in Hlast as (i & Hi & _).
    eapply list_elem_of_lookup_2; eauto.
Qed.

End QualityLadder.

(** C2, as stated, fails: the codec rejects an empty buffer, and the error
    that leaves [convertToWebP] is the codec's own, neither a buffer within
    the ceiling nor [CompressionFailed]. *)
Lemma convertToWebP_codec_error_escapes :
  let settled := snd (convertToWebP (sampleEnv []) [] 90) in
  settled = Throw (CodecError "Input Buffer is empty") /\
  ~ ((exists webpBuffer,
        settled = Ok webpBuffer /\ byteLength webpBuffer <= maxSize) \/
     settled = Throw CompressionFailed).
Proof.
  assert (H : snd (convertToWebP (sampleEnv []) [] 90) =
              Throw (CodecError "Input Buffer is empty")) by reflexivity.
  cbn zeta. rewrite H. split; [reflexivity|].
  intros [(b & Hb & _) | Hb]; discriminate.
Qed.

(** ** Rounding in binary64 *)

Module DoubleFacts.
Import Double.
Local Open Scope Q_scope.

Lemma pow2_pos e : 0 < pow2 e.
Proof. apply Qpower_0_lt. reflexivity. Qed.

Lemma pow2_add a b : pow2 (a + b) == pow2 a * pow2 b.
Proof. apply Qpower_plus. discriminate. Qed.

Lemma pow2_le a b : (a <= b)%Z -> pow2 a <= pow2 b.
Proof. intros H. apply Qpower_le_compat_l; [exact H | discriminate]. Qed.

Lemma pow2_lt_inv a b : pow2 a < pow2 b -> (a < b)%Z.
Proof. intros H. apply (Qpower_lt_compat_l_inv 2); [exact H | reflexivity]. Qed.

Lemma pow2_Z n : (0 <= n)%Z -> pow2 n == inject_Z (2 ^ n).
Proof. intros H. unfold pow2. rewrite Zpower_Qpower by exact H. reflexivity. Qed.

Lemma roundHalfEven_floor x :
  (Qfloor x <= roundHalfEven x <= Qfloor x + 1)%Z.
Proof.
  unfold roundHalfEven.
  destruct (x - inject_Z (Qfloor x) ?= 1 # 2); [destruct (Z.even _)| |]; lia.
Qed.

Lemma roundHalfEven_mono x y : x <= y -> (roundHalfEven x <= roundHalfEven y)%Z.
Proof.
  intros Hxy.
  pose proof (Qfloor_resp_le _ _ Hxy) as Hfl.
  pose proof (roundHalfEven_floor x) as Hx.
  pose proof (roundHalfEven_floor y) as Hy.
  destruct (Z.eq_dec (Qfloor x) (Qfloor y)) as [Heq | Hne]; [|lia].
  unfold roundHalfEven in *. rewrite <- Heq in *.
  set (n := Qfloor x) in *.
  destruct (Qcompare_spec (x - inject_Z n) (1 # 2)) as [Hx1 | Hx1 | Hx1];
  destruct (Qcompare_spec (y - inject_Z n) (1 # 2)) as [Hy1 | Hy1 | Hy1];
    try lia; try (destruct (Z.even n); lia); exfalso; lra.
Qed.

Lemma roundHalfEven_ge k x : inject_Z k <= x -> (k <= roundHalfEven x)%Z.
Proof.
  intros H. apply Qfloor_resp_le in H. rewrite Qfloor_Z in H.
  pose proof (roundHalfEven_floor x). lia.
Qed.

Lemma roundHalfEven_le k x : x <= inject_Z k -> (roundHalfEven x <= k)%Z.
Proof.
  intros H. pose proof (Qfloor_resp_le _ _ H) as Hfl. rewrite Qfloor_Z in Hfl.
  pose proof (roundHalfEven_floor x) as Hx.
  destruct (Z.eq_dec (Qfloor x) k) as [Heq | Hne]; [|lia].
  unfold roundHalfEven. rewrite Heq.
  pose proof (Qfloor_le x) as Hle. rewrite Heq in Hle.
  destruct (Qcompare_spec (x - inject_Z k) (1 # 2)) as [H1 | H1 | H1];
    try lia; exfalso; lra.
Qed.
Lemma pow2_succ e : pow2 (e + 1) == 2 * pow2 e.
Proof. rewrite pow2_add. unfold pow2 at 2. cbn. ring. Qed.

(** a positive integer between two powers of two *)
Lemma log2_bounds (n : Z) :
  (0 < n)%Z ->
  pow2 (Z.log2 n) <= inject_Z n /\ inject_Z n < 2 * pow2 (Z.log2 n).
Proof.
  intros Hn. pose proof (Z.log2_spec n Hn) as [Hlo Hhi].
  pose proof (Z.log2_nonneg n) as Hnn.
  rewrite <- pow2_succ, !pow2_Z by lia.
  rewrite <- Zle_Qle, <- Zlt_Qlt. split; [exact Hlo | exact Hhi].
Qed.

Lemma exponent_spec x :
  0 < x -> pow2 (exponent x) <= x /\ x < pow2 (exponent x + 1).
Proof.
  intros Hx. destruct x as [n d].
  assert (Hn : (0 < n)%Z).
  { unfold Qlt in Hx. cbn in Hx. lia. }
  unfold exponent. cbn [Qnum Qden].
  set (a := Z.log2 n). set (b := Z.log2 (Z.pos d)).
  destruct (log2_bounds n Hn) as [HA1 HA2]. fold a in HA1, HA2.
  destruct (log2_bounds (Z.pos d) eq_refl) as [HB1 HB2]. fold b in HB1, HB2.
  assert (HxD : (n # d) * inject_Z (Z.pos d) == inject_Z n).
  { rewrite Qmake_Qdiv. field. discriminate. }
  assert (HP : pow2 (a - b) * pow2 b == pow2 a).
  { rewrite <- pow2_add. replace (a - b + b)%Z with a by lia. reflexivity. }
  pose proof (pow2_pos (a - b)) as HPpos.
  pose proof (pow2_pos b) as HBpos.
  pose proof (pow2_pos a) as HApos.
  assert (HD : 0 < inject_Z (Z.pos d)) by reflexivity.
  destruct (Qle_bool (pow2 (a - b)) (n # d)) eqn:Htest.
  - apply Qle_bool_iff in Htest. split; [exact Htest|].
    rewrite pow2_succ.
    revert HxD HP HA1 HA2 HB1 HB2 HPpos HBpos HApos HD.
    generalize (pow2 (a - b)) (pow2 a) (pow2 b) (inject_Z (Z.pos d)) (inject_Z n) (n # d).
    intros P A B D N x. intros. nra.
  - assert (Hlt : n # d < pow2 (a - b)).
    { apply Qnot_le_lt. intros H. apply Qle_bool_iff in H. congruence. }
    replace (a - b - 1 + 1)%Z with (a - b)%Z by lia.
    split; [|exact Hlt].
    assert (HP2 : pow2 (a - b) == 2 * pow2 (a - b - 1)).
    { rewrite <- pow2_succ. replace (a - b - 1 + 1)%Z with (a - b)%Z by lia. reflexivity. }
    pose proof (pow2_pos (a - b - 1)) as HP'pos.
    revert HxD HP HP2 HA1 HA2 HB1 HB2 HPpos HBpos HApos HD HP'pos.
    generalize (pow2 (a - b)) (pow2 (a - b - 1)) (pow2 a) (pow2 b) (inject_Z (Z.pos d)) (inject_Z n) (n # d).
    intros P P' A B D N x. intros. nra.
Qed.

Lemma exponent_mono x y : 0 < x -> x <= y -> (exponent x <= exponent y)%Z.
Proof.
  intros Hx Hxy.
  destruct (exponent_spec x Hx) as [Hlo _].
  destruct (exponent_spec y) as [_ Hhi]; [lra|].
  assert (H : pow2 (exponent x) < pow2 (exponent y + 1)) by lra.
  apply pow2_lt_inv in H. lia.
Qed.

(** the significand of a positive number has 53 bits *)
Lemma significand_bounds x :
  0 < x ->
  (2 ^ 52 <= roundHalfEven (x * pow2 (52 - exponent x)) <= 2 ^ 53)%Z.
Proof.
  intros Hx. destruct (exponent_spec x Hx) as [Hlo Hhi].
  set (e := exponent x) in *.
  pose proof (pow2_pos (52 - e)) as Hpos.
  assert (H52 : pow2 e * pow2 (52 - e) == inject_Z (2 ^ 52)).
  { rewrite <- pow2_add, <- pow2_Z by lia. replace (e + (52 - e))%Z with 52%Z by lia. reflexivity. }
  assert (H53 : pow2 (e + 1) * pow2 (52 - e) == inject_Z (2 ^ 53)).
  { rewrite <- pow2_add, <- pow2_Z by lia. replace (e + 1 + (52 - e))%Z with 53%Z by lia. reflexivity. }
  split.
  - apply roundHalfEven_ge. rewrite <- H52.
    apply Qmult_le_compat_r; [exact Hlo | lra].
  - apply roundHalfEven_le. rewrite <- H53.
    apply Qmult_le_compat_r; [lra | lra].
Qed.

Lemma roundPos_bounds x :
  0 < x -> pow2 (exponent x) <= roundPos x /\ roundPos x <= pow2 (exponent x + 1).
Proof.
  intros Hx. destruct (significand_bounds x Hx) as [Hlo Hhi].
  unfold roundPos. set (e := exponent x) in *.
  set (m := roundHalfEven (x * pow2 (52 - e))) in *.
  pose proof (pow2_pos (e - 52)) as Hpos.
  assert (H52 : pow2 e == inject_Z (2 ^ 52) * pow2 (e - 52)).
  { rewrite <- pow2_Z, <- pow2_add by lia. replace (52 + (e - 52))%Z with e by lia. reflexivity. }
  assert (H53 : pow2 (e + 1) == inject_Z (2 ^ 53) * pow2 (e - 52)).
  { rewrite <- pow2_Z, <- pow2_add by lia. replace (53 + (e - 52))%Z with (e + 1)%Z by lia. reflexivity. }
  rewrite H52, H53. rewrite Zle_Qle in Hlo, Hhi.
  split; apply Qmult_le_compat_r; auto; lra.
Qed.

Lemma roundPos_mono x y : 0 < x -> x <= y -> roundPos x <= roundPos y.
Proof.
  intros Hx Hxy.
  assert (Hy : 0 < y) by lra.
  pose proof (exponent_mono x y Hx Hxy) as He.
  destruct (Z.eq_dec (exponent x) (exponent y)) as [Heq | Hne].
  - unfold roundPos. rewrite <- Heq.
    apply Qmult_le_compat_r; [|pose proof (pow2_pos (exponent x - 52)); lra].
    rewrite <- Zle_Qle. apply roundHalfEven_mono.
    apply Qmult_le_compat_r; [exact Hxy|].
    pose proof (pow2_pos (52 - exponent x)); lra.
  - destruct (roundPos_bounds x Hx) as [_ Hhi].
    destruct (roundPos_bounds y Hy) as [Hlo _].
    assert (Hp : pow2 (exponent x + 1) <= pow2 (exponent y)) by (apply pow2_le; lia).
    lra.
Qed.

Lemma roundPos_pos x : 0 < x -> 0 < roundPos x.
Proof.
  intros Hx. destruct (roundPos_bounds x Hx) as [Hlo _].
  pose proof (pow2_pos (exponent x)). lra.
Qed.

Lemma round_eq x y : x == y -> round x = round y.
Proof. intros H. unfold round. rewrite (Qred_complete _ _ H). reflexivity. Qed.

Lemma round_nonneg x : 0 <= x -> 0 <= round x.
Proof.
  intros Hx. unfold round. pose proof (Qred_correct x) as Hr.
  destruct (Qcompare_spec 0 (Qred x)) as [H | H | H].
  - lra.
  - pose proof (roundPos_pos _ H). lra.
  - exfalso. lra.
Qed.

Lemma round_mono x y : 0 <= x -> x <= y -> round x <= round y.
Proof.
  intros Hx Hxy. unfold round.
  pose proof (Qred_correct x) as Hrx. pose proof (Qred_correct y) as Hry.
  destruct (Qcompare_spec 0 (Qred x)) as [H | H | H].
  - destruct (Qcompare_spec 0 (Qred y)) as [H' | H' | H'].
    + lra.
    + pose proof (roundPos_pos _ H'). lra.
    + exfalso. lra.
  - destruct (Qcompare_spec 0 (Qred y)) as [H' | H' | H'].
    + exfalso. lra.
    + apply roundPos_mono; [exact H | lra].
    + exfalso. lra.
  - exfalso. lra.
Qed.

Lemma roundHalfEven_near y :
  inject_Z (roundHalfEven y) - (1 # 2) <= y /\ y <= inject_Z (roundHalfEven y) + (1 # 2).
Proof.
  pose proof (Qfloor_le y) as Hlo. pose proof (Qlt_floor y) as Hhi.
  rewrite inject_Z_plus in Hhi.
  unfold roundHalfEven. set (n := Qfloor y) in *.
  change (inject_Z 1) with 1 in Hhi.
  destruct (Qcompare_spec (y - inject_Z n) (1 # 2)) as [H | H | H].
  - destruct (Z.even n); rewrite ?inject_Z_plus; change (inject_Z 1) with 1;
      split; lra.
  - split; lra.
  - rewrite inject_Z_plus. change (inject_Z 1) with 1. split; lra.
Qed.

Lemma roundPos_near x :
  0 < x -> x - x * u <= roundPos x /\ roundPos x <= x + x * u.
Proof.
  intros Hx. destruct (exponent_spec x Hx) as [Hlo _].
  unfold roundPos. set (e := exponent x) in *.
  destruct (roundHalfEven_near (x * pow2 (52 - e))) as [Hm1 Hm2].
  set (m := inject_Z (roundHalfEven (x * pow2 (52 - e)))) in *.
  pose proof (pow2_pos (e - 52)) as Hp. pose proof (pow2_pos (52 - e)) as Hp'.
  pose proof (pow2_pos e) as Hpe.
  assert (Hinv : pow2 (52 - e) * pow2 (e - 52) == 1).
  { rewrite <- pow2_add. replace (52 - e + (e - 52))%Z with 0%Z by lia. reflexivity. }
  assert (He : pow2 (e - 52) == pow2 e * (2 * u)).
  { replace (e - 52)%Z with (e + (-52))%Z by lia. rewrite pow2_add.
    apply Qmult_comp; [reflexivity|]. vm_compute. reflexivity. }
  revert Hm1 Hm2 Hinv He Hlo Hp Hp' Hpe Hx.
  generalize (pow2 (e - 52)) (pow2 (52 - e)) (pow2 e) m.
  intros a b c m'. intros.
  assert (Hu : u == 1 # 9007199254740992) by reflexivity.
  assert (Hxab : x * b * a == x) by (rewrite <- Qmult_assoc, Hinv; ring).
  split; nra.
Qed.

Lemma round_near x :
  0 <= x -> x - x * u <= round x /\ round x <= x + x * u.
Proof.
  intros Hx. unfold round. pose proof (Qred_correct x) as Hr.
  destruct (Qcompare_spec 0 (Qred x)) as [H | H | H].
  - assert (Hu : u == 1 # 9007199254740992) by reflexivity.
    split; nra.
  - destruct (roundPos_near _ H) as [H1 H2].
    assert (Hu : u == 1 # 9007199254740992) by reflexivity.
    split; nra.
  - exfalso. lra.
Qed.

End DoubleFacts.

Section Progress.
Import Double DoubleFacts.

Lemma inject_Z_nonneg z : 0 <= z -> (0 <= inject_Z z)%Q.
Proof. intros H. unfold Qle. cbn. lia. Qed.

Lemma scaled_mono p p' t :
  0 < t -> 0 <= p <= p' -> scaled p t <= scaled p' t.
Proof.
  intros Ht Hp. unfold scaled, mul, div.
  assert (HT : (0 < inject_Z t)%Q) by (rewrite Zlt_Qlt in Ht; exact Ht).
  assert (HP : (0 <= inject_Z p)%Q) by (apply inject_Z_nonneg; lia).
  assert (HPP : (inject_Z p <= inject_Z p')%Q) by (rewrite <- Zle_Qle; lia).
  assert (Hinv : (0 < / inject_Z t)%Q) by (apply Qinv_lt_0_compat; exact HT).
  assert (H0 : (0 <= inject_Z p / inject_Z t)%Q).
  { unfold Qdiv. apply Qmult_le_0_compat; lra. }
  assert (H1 : (inject_Z p / inject_Z t <= inject_Z p' / inject_Z t)%Q).
  { unfold Qdiv. apply Qmult_le_compat_r; lra. }
  apply Qfloor_resp_le. apply round_mono.
  - apply Qmult_le_0_compat; [apply round_nonneg; exact H0 | discriminate].
  - apply Qmult_le_compat_r; [|discriminate].
    apply round_mono; assumption.
Qed.

Lemma scaled_full t : 0 < t -> scaled t t = 70.
Proof.
  intros Ht. unfold scaled, mul, div.
  assert (H : (inject_Z t / inject_Z t == 1)%Q).
  { field. intros H0. unfold Qeq in H0. cbn in H0. lia. }
  rewrite (round_eq _ _ H). vm_compute. reflexivity.
Qed.

Lemma scaled_nonneg p t : 0 < t -> 0 <= p -> 0 <= scaled p t.
Proof.
  intros Ht Hp. unfold scaled, mul, div.
  assert (HT : (0 < inject_Z t)%Q) by (rewrite Zlt_Qlt in Ht; exact Ht).
  assert (HP : (0 <= inject_Z p)%Q) by (apply inject_Z_nonneg; lia).
  assert (Hinv : (0 < / inject_Z t)%Q) by (apply Qinv_lt_0_compat; exact HT).
  change 0 with (Qfloor 0). apply Qfloor_resp_le. apply round_nonneg.
  apply Qmult_le_0_compat; [|discriminate].
  apply round_nonneg. unfold Qdiv. apply Qmult_le_0_compat; lra.
Qed.

(** The machine value is within one of the exact quotient: it is
    [floor(70 * processed / total)] or one less. *)
Lemma scaled_linear p t :
  0 < t <= 2 ^ 45 -> 0 <= p <= t ->
  70 * p / t - 1 <= scaled p t <= 70 * p / t.
Proof.
  intros Ht Hp. unfold scaled, mul, div.
  set (q := (inject_Z p / inject_Z t)%Q).
  assert (HT : (0 < inject_Z t)%Q) by (destruct Ht as [Ht _]; rewrite Zlt_Qlt in Ht; exact Ht).
  assert (HT' : (inject_Z t <= inject_Z (2 ^ 45))%Q) by (rewrite <- Zle_Qle; lia).
  assert (HP : (0 <= inject_Z p)%Q) by (apply inject_Z_nonneg; lia).
  assert (HPT : (inject_Z p <= inject_Z t)%Q) by (rewrite <- Zle_Qle; lia).
  assert (Hqt : (q * inject_Z t == inject_Z p)%Q).
  { unfold q. field. lra. }
  assert (Hq0 : (0 <= q)%Q).
  { unfold q, Qdiv. apply Qmult_le_0_compat; [exact HP|].
    apply Qlt_le_weak, Qinv_lt_0_compat. exact HT. }
  assert (Hq1 : (q <= 1)%Q) by nra.
  destruct (round_near q Hq0) as [Hr1 Hr2].
  assert (Hr0 : (0 <= round q)%Q) by (apply round_nonneg; exact Hq0).
  assert (Hz0 : (0 <= round q * 70)%Q) by lra.
  destruct (round_near (round q * 70) Hz0) as [Hs1 Hs2].
  set (z := round (round q * 70)) in *.
  pose proof (Qfloor_le z) as Hf1. pose proof (Qlt_floor z) as Hf2.
  rewrite inject_Z_plus in Hf2. change (inject_Z 1) with 1%Q in Hf2.
  set (f := Qfloor z) in *.
  assert (Hu : (u == 1 # 9007199254740992)%Q) by reflexivity.
  assert (H45 : (inject_Z (2 ^ 45) == 35184372088832)%Q) by reflexivity.
  assert (Hup : (inject_Z (f * t) < inject_Z (70 * p + 1))%Q).
  { rewrite inject_Z_mult, inject_Z_plus, inject_Z_mult.
    change (inject_Z 70) with 70%Q. change (inject_Z 1) with 1%Q.
    revert Hqt Hq0 Hq1 Hr1 Hr2 Hr0 Hs1 Hs2 Hf1 HT HT' Hu H45.
    generalize (round q) (inject_Z f) (inject_Z t) (inject_Z p) (inject_Z (2 ^ 45)).
    intros r F T P B. intros. nra. }
  assert (Hlow : (inject_Z (70 * p) < inject_Z ((f + 1) * t + 1))%Q).
  { rewrite inject_Z_plus, !inject_Z_mult, inject_Z_plus.
    change (inject_Z 70) with 70%Q. change (inject_Z 1) with 1%Q.
    revert Hqt Hq0 Hq1 Hr1 Hr2 Hr0 Hs1 Hs2 Hf2 HT HT' Hu H45.
    generalize (round q) (inject_Z f) (inject_Z t) (inject_Z p) (inject_Z (2 ^ 45)).
    intros r F T P B. intros. nra. }
  rewrite <- Zlt_Qlt in Hup, Hlow.
  split.
  - assert (H : 70 * p / t <= f + 1); [|lia].
    apply Z.div_le_upper_bound; lia.
  - apply Z.div_le_lower_bound; lia.
Qed.
Lemma convertingProgress_full t : 0 < t -> convertingProgress t t = 80.
Proof.
  intros Ht. unfold convertingProgress.
  destruct (Z.eqb_spec t 0); [lia|]. rewrite scaled_full by exact Ht. reflexivity.
Qed.

Lemma convertingProgress_mono p p' t :
  0 <= t -> 0 <= p <= p' -> convertingProgress p t <= convertingProgress p' t.
Proof.
  intros Ht Hp. unfold convertingProgress.
  destruct (Z.eqb_spec t 0); [lia|].
  pose proof (scaled_mono p p' t). lia.
Qed.

Lemma convertingProgress_range p t :
  0 <= t -> 0 <= p -> 10 <= convertingProgress p t <= 90.
Proof.
  intros Ht Hp. unfold convertingProgress.
  destruct (Z.eqb_spec t 0); [lia|].
  pose proof (scaled_nonneg p t). lia.
Qed.

Lemma convertingProgress_le_80 p t :
  0 <= p <= t -> 0 < t -> convertingProgress p t <= 80.
Proof.
  intros Hp Ht. rewrite <- (convertingProgress_full t Ht).
  apply convertingProgress_mono; lia.
Qed.

Lemma scaled_double t : 0 < t -> scaled (2 * t) t = 140.
Proof.
  intros Ht. unfold scaled, mul, div.
  assert (H : (inject_Z (2 * t) / inject_Z t == 2)%Q).
  { rewrite inject_Z_mult. change (inject_Z 2) with 2%Q.
    field. intros H0. unfold Qeq in H0. cbn in H0. lia. }
  rewrite (round_eq _ _ H). vm_compute. reflexivity.
Qed.

(** With twice as many conversions as were counted the cap is reached. *)
Lemma convertingProgress_capped p t :
  0 < t -> 2 * t <= p -> convertingProgress p t = 90.
Proof.
  intros Ht Hp. unfold convertingProgress.
  destruct (Z.eqb_spec t 0); [lia|].
  pose proof (scaled_mono (2 * t) p t Ht) as Hm.
  rewrite (scaled_double t Ht) in Hm. lia.
Qed.
End Progress.

(** The rational rendering of the formula gives the value of the binary64
    operations on every pair up to 80 files, among them 47 of 70, where the
    exact quotient would give 47 and the machine gives 46. *)
Example scaled_agrees_with_binary64 : agreesWithBinary64 80 = true.
Proof. vm_compute. reflexivity. Qed.

Example scaled_47_of_70 : scaled 47 70 = 46 /\ 47 * 70 / 70 = 47.
Proof. split; vm_compute; reflexivity. Qed.

(** C4, as stated, fails: a job whose only picture is converted publishes 80
    as the last progress of the converting stage, with [processedFiles] equal
    to [totalFiles]; 90 comes with the zipping stage. *)
Lemma converting_stage_ends_at_80 :
  map (fun r => (status r, processedFiles r, totalFiles r, progress r))
      (published (runJob (sampleEnv [RegularFile "a.png" [Byte.x89; Byte.x50]])
                         "1700000000000" upload emptyDisk)) =
  [(extracting, None, None, Some 0);
   (converting, None, None, Some 10);
   (converting, Some 1, Some 1, Some 80);
   (zipping, None, None, Some 90);
   (completed, Some 1, Some 1, Some 100)].
Proof. vm_compute. reflexivity. Qed.

(** C4, as amended: during the converting stage the progress is
    [min(90, 10 + floor((processedFiles / totalFiles) * 70))], whatever the
    two counters are: between 10 and 90, not decreasing as [processedFiles]
    grows, and 90 once [processedFiles] is twice [totalFiles].  It is 80, not
    90, when all [totalFiles] files are processed, and up to there it is
    [10 + floor(70 * processedFiles / totalFiles)] or, by the rounding of the
    two binary64 operations, one less. *)
Theorem convertingProgress_reaches_80 processed processed' total :
  0 < total -> 0 <= processed <= processed' ->
  convertingProgress processed total = Z.min 90 (10 + scaled processed total) /\
  10 <= convertingProgress processed total <= 90 /\
  convertingProgress processed total <= convertingProgress processed' total /\
  convertingProgress total total = 80 /\
  (2 * total <= processed -> convertingProgress processed total = 90) /\
  (processed <= total -> total <= 2 ^ 45 ->
   10 + 70 * processed / total - 1 <= convertingProgress processed total
     <= 10 + 70 * processed / total).
Proof.
  intros Ht Hp.
  split.
  { unfold convertingProgress. destruct (Z.eqb_spec total 0); [lia | reflexivity]. }
  split; [apply convertingProgress_range; lia|].
  split; [apply convertingProgress_mono; lia|].
  split; [apply convertingProgress_full; exact Ht|].
  split; [apply convertingProgress_capped; exact Ht|].
  intros Hle Hbig. pose proof (scaled_linear processed total) as Hlin.
  pose proof (convertingProgress_le_80 processed total) as H80.
  unfold convertingProgress in *.
  destruct (Z.eqb_spec total 0); lia.
Qed.

(** the theorem at one, then four, of three files *)
Lemma convertingProgress_reaches_80_witness :
  convertingProgress 1 3 = Z.min 90 (10 + scaled 1 3) /\
  10 <= convertingProgress 1 3 <= 90 /\
  convertingProgress 1 3 <= convertingProgress 4 3 /\
  convertingProgress 3 3 = 80 /\
  (2 * 3 <= 1 -> convertingProgress 1 3 = 90) /\
  (1 <= 3 -> 3 <= 2 ^ 45 ->
   10 + 70 * 1 / 3 - 1 <= convertingProgress 1 3 <= 10 + 70 * 1 / 3).
Proof. apply (convertingProgress_reaches_80 1 4 3); lia. Defined.

(** Three of two: the cap of 90 holds the value that would be 115. *)
Example convertingProgress_beyond_total :
  scaled 3 2 = 105 /\ convertingProgress 3 2 = 90 /\ convertingProgress 2 2 = 80.
Proof. vm_compute. repeat split; reflexivity. Qed.


(** ** Running statements *)

Lemma bind_run {A B} (m : M A) (k : A -> M B) s :
  (m ≫= k) s = match m s with
               | (Ok a, s') => k a s'
               | (Throw e, s') => (Throw e, s')
               end.
Proof. reflexivity. Qed.

Lemma bind_assoc_run {A B C} (m : M A) (k : A -> M B) (k' : B -> M C) s :
  ((m ≫= k) ≫= k') s = (m ≫= (fun a => k a ≫= k')) s.
Proof.
  rewrite !bind_run. destruct (m s) as [[a|e] s']; reflexivity.
Qed.

(** Run the first statement of a sequence. *)
Ltac run_head := rewrite ?bind_assoc_run; rewrite bind_run.

Lemma forM__cons {A} (f : A -> M unit) x rest s :
  forM_ f (x :: rest) s = match f x s with
                          | (Ok _, s') => forM_ f rest s'
                          | (Throw e, s') => (Throw e, s')
                          end.
Proof. reflexivity. Qed.

Lemma publish_run r s :
  publish r s =
  (Ok tt, {| published := published s ++ [r]; disk := disk s;
             totalPngs := totalPngs s; processedPngs := processedPngs s |}).
Proof. reflexivity. Qed.

(** ** The count and the walk *)

Section Walk.
Variable env : Env.
Variable jobId : string.

(** Induction over a tree, with the hypothesis for every entry of a
    directory. *)
Lemma node_tree_ind (P : node -> Prop) :
  (forall name items, Forall P items -> P (Directory name items)) ->
  (forall name data, P (RegularFile name data)) ->
  forall item, P item.
Proof.
  intros Hdir Hfile. fix IH 1. intros [name items | name data].
  - apply Hdir. induction items as [|x rest IHrest]; constructor; [apply IH | exact IHrest].
  - apply Hfile.
Qed.

Lemma fs_run op s :
  fs env op s = match fs_fault env op with
                | Some msg => (Throw (FilesystemError msg), s)
                | None => (Ok tt, s)
                end.
Proof. reflexivity. Qed.

(** The [try] block of an entry either fails with the state untouched, or
    writes the picture, counts it and publishes the new count. *)
Lemma convertEntry_run sourcePath outputDir item data s :
  convertEntry env jobId sourcePath outputDir item data s =
  match attempt env sourcePath outputDir item data with
  | Ok webpBuffer =>
      (Ok tt,
       {| published := published s ++
            [convertingRecord env jobId (processedPngs s + 1) (totalPngs s)];
          disk := {| dirs := dirs (disk s);
                     files := <[outputDir ++ [Path.parse_name item +:+ ".webp"] := webpBuffer]>
                                (files (disk s)) |};
          totalPngs := totalPngs s;
          processedPngs := processedPngs s + 1 |})
  | Throw e => (Throw e, s)
  end.
Proof.
  unfold convertEntry, attempt, readFileSync, writeFileSync.
  rewrite !bind_run, fs_run.
  destruct (fs_fault env (ReadFile sourcePath)); [reflexivity|].
  cbn. unfold settle.
  destruct (snd (convertToWebP env data 90)) as [webpBuffer | e]; [|reflexivity].
  rewrite !bind_run, fs_run.
  destruct (fs_fault env (WriteFile _)); reflexivity.
Qed.

Lemma convertingRecords_app from total n m :
  convertingRecords env jobId from total (n + m) =
  convertingRecords env jobId from total n ++
  convertingRecords env jobId (from + Z.of_nat n) total m.
Proof.
  unfold convertingRecords. rewrite seq_app, map_app. f_equal.
  replace (1 + n)%nat with (n + 1)%nat by lia.
  rewrite <- fmap_add_seq, <- list_fmap_compose.
  apply map_ext. intros k. cbn. f_equal. lia.
Qed.

Lemma walked_refl s : walked env jobId 0 s s.
Proof.
  unfold walked, convertingRecords. cbn. rewrite app_nil_r.
  repeat split; lia.
Qed.

Lemma walked_trans n m s s' s'' :
  walked env jobId n s s' -> walked env jobId m s' s'' ->
  walked env jobId (n + m) s s''.
Proof.
  intros (Ht & Hp & Hpub) (Ht' & Hp' & Hpub'). unfold walked.
  rewrite Ht', Ht, Hp', Hp, Hpub', Hpub, Ht, Hp.
  repeat split; [lia|]. rewrite convertingRecords_app, app_assoc. reflexivity.
Qed.

Lemma walked_onDisk f s : walked env jobId 0 s (snd (onDisk f s)).
Proof.
  unfold walked, convertingRecords. cbn. rewrite app_nil_r.
  repeat split; lia.
Qed.

Lemma convertible_cons item rest :
  convertible (item :: rest) = (convertibleIn item + convertible rest)%nat.
Proof. reflexivity. Qed.

Lemma failing_cons sourceDir outputDir item rest :
  failing env sourceDir outputDir (item :: rest) =
  (failingIn env sourceDir outputDir item + failing env sourceDir outputDir rest)%nat.
Proof. reflexivity. Qed.

Lemma forM__processItem_spec sourceDir outputDir items :
  Forall (entrySpec env jobId) items ->
  forall s,
    exists n,
      (n <= convertible items)%nat /\
      walked env jobId n s
        (snd (forM_ (processItem env jobId sourceDir outputDir) items s)) /\
      (fst (forM_ (processItem env jobId sourceDir outputDir) items s) = Ok tt ->
       (n + failing env sourceDir outputDir items = convertible items)%nat).
Proof.
  induction 1 as [|item rest Hitem _ IH]; intros s.
  - exists 0%nat. cbn. split; [lia|]. split; [apply walked_refl | reflexivity].
  - rewrite forM__cons, convertible_cons, failing_cons.
    destruct (Hitem sourceDir outputDir s) as (n & Hn & Hw & Hok).
    destruct (processItem env jobId sourceDir outputDir item s) as [[[]|e] s'];
      cbn [fst snd] in *.
    + destruct (IH s') as (m & Hm & Hw' & Hok').
      exists (n + m)%nat.
      split; [lia|]. split; [eapply walked_trans; eauto|].
      intros H. specialize (Hok eq_refl). specialize (Hok' H). lia.
    + exists n. split; [lia|]. split; [exact Hw|].
      discriminate.
Qed.

Lemma processItem_spec item : entrySpec env jobId item.
Proof.
  induction item as [name items IH | name data] using node_tree_ind;
    intros sourceDir outputDir s.
  - cbn [processItem nodeName]. rewrite bind_run, fs_run.
    destruct (fs_fault env (Stat _)).
    { exists 0%nat. cbn. split; [lia|]. split; [apply walked_refl | discriminate]. }
    rewrite bind_run. unfold mkdirSync. rewrite bind_run, fs_run.
    destruct (fs_fault env (Mkdir _)).
    { exists 0%nat. cbn. split; [lia|]. split; [apply walked_refl | discriminate]. }
    match goal with
    | |- context [onDisk ?f s] =>
        set (s1 := snd (onDisk f s));
        assert (Hs1 : walked env jobId 0 s s1) by apply walked_onDisk;
        change (onDisk f s) with (Ok tt, s1)
    end.
    cbn beta iota.
    rewrite bind_run, fs_run.
    destruct (fs_fault env (Readdir _)).
    { exists 0%nat. cbn. split; [lia|]. split; [exact Hs1 | discriminate]. }
    destruct (forM__processItem_spec (sourceDir ++ [name]) (outputDir ++ [name]) items IH s1)
      as (n & Hn & Hw & Hok).
    exists n. cbn [convertibleIn failingIn nodeName].
    split; [exact Hn|]. split; [exact (walked_trans 0 n _ _ _ Hs1 Hw) | exact Hok].
  - cbn [processItem nodeName convertibleIn failingIn]. rewrite bind_run, fs_run.
    destruct (fs_fault env (Stat _)).
    { exists 0%nat. cbn. split; [lia|]. split; [apply walked_refl | discriminate]. }
    destruct (isPng name); cbn [andb].
    + unfold try_catch, attemptFails. rewrite convertEntry_run.
      destruct (attempt env (sourceDir ++ [name]) outputDir name data) as [webpBuffer | e].
      * exists 1%nat. cbn [fst snd]. split; [lia|]. split; [|lia].
        unfold walked, convertingRecords. cbn. repeat split. 
      * exists 0%nat. cbn [fst snd]. split; [lia|]. split; [apply walked_refl | lia].
    + unfold copyFileSync. rewrite bind_run, fs_run.
      destruct (fs_fault env (CopyFile _ _)).
      * exists 0%nat. cbn. split; [lia|]. split; [apply walked_refl | discriminate].
      * exists 0%nat. split; [lia|]. split; [apply walked_onDisk | reflexivity].
Qed.

Lemma counted_refl s : counted 0 s s.
Proof. unfold counted. repeat split; lia. Qed.

Lemma counted_trans k m s s' s'' :
  counted k s s' -> counted m s' s'' -> counted (k + m) s s''.
Proof.
  intros (H1 & H2 & H3 & H4) (H1' & H2' & H3' & H4'). unfold counted.
  rewrite H1', H2', H3', H4', H1, H2, H3, H4. repeat split; lia.
Qed.

Lemma forM__countItem_spec dir items :
  Forall (countSpec env) items ->
  forall s,
    exists k,
      (k <= convertible items)%nat /\
      counted k s (snd (forM_ (countItem env dir) items s)) /\
      (fst (forM_ (countItem env dir) items s) = Ok tt -> k = convertible items).
Proof.
  induction 1 as [|item rest Hitem _ IH]; intros s.
  - exists 0%nat. cbn. split; [lia|]. split; [apply counted_refl | reflexivity].
  - rewrite forM__cons, convertible_cons.
    destruct (Hitem dir s) as (k & Hk & Hc & Hok).
    destruct (countItem env dir item s) as [[[]|e] s']; cbn [fst snd] in *.
    + destruct (IH s') as (m & Hm & Hc' & Hok').
      exists (k + m)%nat.
      split; [lia|]. split; [eapply counted_trans; eauto|].
      intros H. specialize (Hok eq_refl). specialize (Hok' H). lia.
    + exists k. split; [lia|]. split; [exact Hc | discriminate].
Qed.

Lemma countItem_spec item : countSpec env item.
Proof.
  induction item as [name items IH | name data] using node_tree_ind;
    intros dir s.
  - cbn [countItem nodeName]. rewrite bind_run, fs_run.
    destruct (fs_fault env (Stat _)).
    { exists 0%nat. cbn. split; [lia|]. split; [apply counted_refl | discriminate]. }
    rewrite bind_run, fs_run.
    destruct (fs_fault env (Readdir _)).
    { exists 0%nat. cbn. split; [lia|]. split; [apply counted_refl | discriminate]. }
    exact (forM__countItem_spec (dir ++ [name]) items IH s).
  - cbn [countItem nodeName convertibleIn]. rewrite bind_run, fs_run.
    destruct (fs_fault env (Stat _)).
    { exists 0%nat. cbn. split; [lia|]. split; [apply counted_refl | discriminate]. }
    destruct (isPng name).
    + exists 1%nat. split; [lia|]. split; [|reflexivity].
      unfold counted. cbn. repeat split.
    + exists 0%nat. split; [lia|]. split; [apply counted_refl | reflexivity].
Qed.

Lemma countPngs_spec dir items s :
  exists k,
    (k <= convertible items)%nat /\
    counted k s (snd (countPngs env dir items s)) /\
    (fst (countPngs env dir items s) = Ok tt -> k = convertible items).
Proof.
  unfold countPngs. rewrite bind_run, fs_run.
  destruct (fs_fault env (Readdir dir)).
  { exists 0%nat. cbn. split; [lia|]. split; [apply counted_refl | discriminate]. }
  apply forM__countItem_spec. apply Forall_forall. intros item _.
  apply countItem_spec.
Qed.

Lemma processDirectory_spec sourceDir outputDir items s :
  exists n,
    (n <= convertible items)%nat /\
    walked env jobId n s (snd (processDirectory env jobId sourceDir outputDir items s)) /\
    (fst (processDirectory env jobId sourceDir outputDir items s) = Ok tt ->
     (n + failing env sourceDir outputDir items = convertible items)%nat).
Proof.
  unfold processDirectory. rewrite bind_run, fs_run.
  destruct (fs_fault env (Readdir sourceDir)).
  { exists 0%nat. cbn. split; [lia|]. split; [apply walked_refl | discriminate]. }
  apply forM__processItem_spec. apply Forall_forall. intros item _.
  apply processItem_spec.
Qed.
End Walk.

(** ** One run of the job *)

Section Orchestrator.
Variable env : Env.
Variable jobId : string.

Lemma mkdirSync_run p s :
  exists s',
    (mkdirSync env p s = (Ok tt, s') \/
     exists msg, mkdirSync env p s = (Throw (FilesystemError msg), s')) /\
    published s' = published s /\
    totalPngs s' = totalPngs s /\
    processedPngs s' = processedPngs s.
Proof.
  unfold mkdirSync. rewrite bind_run, fs_run.
  destruct (fs_fault env (Mkdir p)) as [msg|].
  - exists s. split; [right; eauto | auto].
  - eexists. split; [left; reflexivity | cbn; auto].
Qed.

Lemma tryBlock_outcome fileBuffer d r s :
  tryBlock env jobId fileBuffer (startState d) = (r, s) ->
  match r with
  | Throw e =>
      Published env jobId (withinFound env jobId fileBuffer)
        (published s ++ [failedRecord env jobId e])
  | Ok _ =>
      exists items,
        extractAllTo env fileBuffer = Done items /\
        let found := foundByWalk env (extractDir_of env jobId) items in
        let N := convertible items in
        let F := convertible found in
        let K := failing env (extractDir_of env jobId) (outputDir_of env jobId) found in
        (K <= F)%nat /\
        published s =
          stageRecord env jobId extracting 0 ::
          stageRecord env jobId converting 10 ::
          convertingRecords env jobId 0 (Z.of_nat N) (F - K) ++
          [stageRecord env jobId zipping 90;
           completedRecord env jobId (Z.of_nat (F - K)) (Z.of_nat N)]
  end.
Proof.
  unfold tryBlock, extractStage, convertStage, zipStage.
  run_head. rewrite publish_run. cbn beta iota.
  set (s1 := {| published := _ |}).
  assert (Hp1 : published s1 = [stageRecord env jobId extracting 0]) by reflexivity.
  assert (Ht1 : totalPngs s1 = 0) by reflexivity.
  assert (Hd1 : processedPngs s1 = 0) by reflexivity.
  clearbody s1.
  run_head.
  destruct (mkdirSync_run (extractDir_of env jobId) s1)
    as (s2 & [-> | [msg ->]] & Hp2 & Ht2 & Hd2).
  2: { intros [= <- <-]. rewrite Hp2, Hp1. apply FailsExtracting. }
  run_head.
  destruct (mkdirSync_run (outputDir_of env jobId) s2)
    as (s3 & [-> | [msg ->]] & Hp3 & Ht3 & Hd3).
  2: { intros [= <- <-]. rewrite Hp3, Hp2, Hp1. apply FailsExtracting. }
  run_head. unfold settle at 1.
  destruct (extractAllTo env fileBuffer) as [items | msg] eqn:Hex; cbn [raised].
  2: { intros [= <- <-]. rewrite Hp3, Hp2, Hp1. apply FailsExtracting. }
  run_head. rewrite publish_run. cbn beta iota.
  set (s4 := {| published := _ |}).
  assert (Hp4 : published s4 = [stageRecord env jobId extracting 0; stageRecord env jobId converting 10]).
  { cbn. rewrite Hp3, Hp2, Hp1. reflexivity. }
  assert (Ht4 : totalPngs s4 = 0) by (cbn; lia).
  assert (Hd4 : processedPngs s4 = 0) by (cbn; lia).
  clearbody s4.
  run_head.
  destruct (countPngs_spec env (extractDir_of env jobId) items s4)
    as (k & Hk & (Hp5 & _ & Hd5 & Ht5) & Hkok).
  destruct (countPngs env (extractDir_of env jobId) items s4) as [[[]|e] s5];
    cbn [fst snd] in *.
  2: { intros [= <- <-]. rewrite Hp5, Hp4.
       apply (Converts env jobId _ 0 k [failedRecord env jobId e]); [|constructor].
       exists items. split; [exact Hex|]. split; [lia | left; reflexivity]. }
  specialize (Hkok eq_refl). subst k.
  set (N := convertible items) in *.
  set (found := foundByWalk env (extractDir_of env jobId) items).
  set (F := convertible found).
  run_head.
  destruct (processDirectory_spec env jobId (extractDir_of env jobId) (outputDir_of env jobId) found s5)
    as (n & Hn & (Ht6 & Hd6 & Hp6) & Hnok).
  fold F in Hn, Hnok.
  assert (Hfits : withinFound env jobId fileBuffer n N).
  { exists items. split; [exact Hex|]. split; [exact Hn | right; reflexivity]. }
  rewrite Hp5, Hp4, Hd5, Hd4, Ht5, Ht4 in Hp6. rewrite Z.add_0_l in Hp6.
  destruct (processDirectory env jobId (extractDir_of env jobId) (outputDir_of env jobId) found s5)
    as [[[]|e] s6]; cbn [fst snd] in *.
  2: { intros [= <- <-]. rewrite Hp6. cbn [app].
       apply Converts; [exact Hfits | constructor]. }
  specialize (Hnok eq_refl).
  set (K := failing env (extractDir_of env jobId) (outputDir_of env jobId) found) in *.
  assert (Hn' : n = (F - K)%nat) by lia.
  run_head. rewrite publish_run. cbn beta iota.
  run_head. unfold getState at 1. cbn beta iota.
  run_head. unfold settle at 1.
  match goal with
  | |- context [writeZip env ?p ?f] => destruct (writeZip env p f) as [zipBuffer | msg]
  end; cbn [raised].
  2: { intros [= <- <-]. cbn [published]. rewrite Hp6. cbn [app].
       rewrite <- app_assoc. cbn [app].
       apply Converts; [exact Hfits | constructor]. }
  intros [= <- <-]. exists items. split; [reflexivity|]. cbn zeta.
  fold found. fold F. fold K. fold N.
  split; [lia|]. cbn [published processedPngs totalPngs].
  rewrite Hp6, Hd6, Ht6, Hd5, Hd4, Ht5, Ht4, <- Hn'. cbn [app].
  rewrite <- !app_assoc. cbn [app]. rewrite !Z.add_0_l. reflexivity.
Qed.

(** The disk the clean-up of the [catch] block leaves. *)
Lemma cleanUp_run s :
  cleanUp env jobId s =
  (Ok tt,
   {| published := published s;
      disk := if existsSync (tempDir_of env jobId) (disk s)
              then match fs_fault env (Rm (tempDir_of env jobId)) with
                   | None => removeTree (tempDir_of env jobId) (disk s)
                   | Some _ => disk s
                   end
              else disk s;
      totalPngs := totalPngs s;
      processedPngs := processedPngs s |}).
Proof.
  unfold cleanUp, try_catch. cbn zeta. rewrite bind_run. unfold getState.
  cbn beta iota.
  destruct (existsSync (tempDir_of env jobId) (disk s)).
  - rewrite bind_run, fs_run.
    destruct (fs_fault env (Rm (tempDir_of env jobId))); [|reflexivity].
    destruct s; reflexivity.
  - destruct s; reflexivity.
Qed.

Lemma catchBlock_run e s :
  fst (catchBlock env jobId e s) = Ok tt /\
  published (snd (catchBlock env jobId e s)) =
    published s ++ [failedRecord env jobId e].
Proof.
  unfold catchBlock. rewrite bind_run, publish_run. cbn beta iota.
  rewrite cleanUp_run. split; reflexivity.
Qed.

(** The job never lets an exception out, and what it published is what its
    [try] block published, followed by the [failed] record if that threw. *)
Lemma processFilesAsync_run fileBuffer s0 :
  fst (processFilesAsync env jobId fileBuffer s0) = Ok tt /\
  published (snd (processFilesAsync env jobId fileBuffer s0)) =
    match tryBlock env jobId fileBuffer s0 with
    | (Ok _, s) => published s
    | (Throw e, s) => published s ++ [failedRecord env jobId e]
    end.
Proof.
  unfold processFilesAsync, try_catch.
  destruct (tryBlock env jobId fileBuffer s0) as [[[]|e] s].
  - split; reflexivity.
  - apply catchBlock_run.
Qed.

Lemma runJob_Published fileBuffer d :
  Published env jobId (withinFound env jobId fileBuffer)
    (published (runJob env jobId fileBuffer d)).
Proof.
  unfold runJob.
  destruct (processFilesAsync_run fileBuffer (startState d)) as [_ ->].
  pose proof (tryBlock_outcome fileBuffer d) as H.
  destruct (tryBlock env jobId fileBuffer (startState d)) as [[[]|e] s];
    specialize (H _ _ eq_refl); cbn beta iota in H.
  - destruct H as (items & Hex & HK & ->).
    apply Converts; [|constructor].
    exists items. split; [exact Hex|]. split; [lia | right; reflexivity].
  - exact H.
Qed.
End Orchestrator.

(** ** What the registry sees of a job *)

Section Job.

Variable env : Env.
Variable jobId : string.

Lemma filter_running_converting from total n :
  filter (fun r => nonTerminal (status r) = true)
         (convertingRecords env jobId from total n) =
  convertingRecords env jobId from total n.
Proof.
  unfold convertingRecords. induction (seq 1 n) as [|k ks IH]; [reflexivity|].
  cbn [map]. rewrite filter_cons_True by reflexivity. f_equal. exact IH.
Qed.

Lemma runningProgress_converting from total n rest :
  runningProgress (convertingRecords env jobId from total n ++ rest) =
  map (fun k => convertingProgress (from + Z.of_nat k) total) (seq 1 n) ++
  runningProgress rest.
Proof.
  unfold runningProgress. rewrite filter_app, omap_app, filter_running_converting.
  f_equal. unfold convertingRecords.
  induction (seq 1 n) as [|k ks IH]; [reflexivity|].
  cbn. f_equal. exact IH.
Qed.

(** The progress of the conversions, followed by the 90 of the zipping
    stage if it is reached, does not decrease. *)
Lemma converting_progress_sorted total tail a n :
  0 <= total -> Forall (eq 90) tail ->
  StronglySorted Z.le
    (map (fun k => convertingProgress (0 + Z.of_nat k) total) (seq a n) ++ tail).
Proof.
  intros Ht Htail. revert a. induction n as [|n IH]; intros a; cbn [seq map app].
  - clear Ht. induction Htail as [|v tail Hv Htail IHt]; constructor; [exact IHt|].
    subst v. eapply Forall_impl; [exact Htail|]. intros ? <-. lia.
  - constructor; [apply IH|]. apply Forall_app. split.
    + apply Forall_forall. intros v Hv. apply list_elem_of_In, in_map_iff in Hv.
      destruct Hv as (k & <- & Hk). apply in_seq in Hk.
      apply convertingProgress_mono; lia.
    + eapply Forall_impl; [exact Htail|]. intros ? <-.
      apply convertingProgress_range; lia.
Qed.

Lemma Published_sorted fits rs :
  Published env jobId fits rs -> StronglySorted Z.le (runningProgress rs).
Proof.
  intros [e | n total ending Hn Hend].
  - cbn. repeat constructor.
  - change (runningProgress (_ :: _ :: ?l)) with (0 :: 10 :: runningProgress l).
    rewrite runningProgress_converting.
    assert (Htail : Forall (eq 90) (runningProgress ending)).
    { destruct Hend; cbn; repeat constructor. }
    pose proof (converting_progress_sorted (Z.of_nat total) _ 1 n
                  (Nat2Z.is_nonneg total) Htail) as Hs.
    assert (Hge : Forall (Z.le 10)
              (map (fun k => convertingProgress (0 + Z.of_nat k) (Z.of_nat total)) (seq 1 n) ++
               runningProgress ending)).
    { apply Forall_app. split.
      - apply Forall_forall. intros v Hv. apply list_elem_of_In, in_map_iff in Hv.
        destruct Hv as (k & <- & _). apply convertingProgress_range; lia.
      - eapply Forall_impl; [exact Htail|]. intros ? <-. lia. }
    constructor; [constructor; [exact Hs | exact Hge]|].
    constructor; [lia|]. eapply Forall_impl; [exact Hge|]. intros v Hv. cbn in Hv. lia.
Qed.

Lemma Published_has_progress fits rs :
  Published env jobId fits rs ->
  Forall (fun r => nonTerminal (status r) = true -> is_Some (progress r)) rs.
Proof.
  intros [e | n total ending Hn Hend].
  - repeat constructor; cbn; eauto; discriminate.
  - constructor; [cbn; eauto|]. constructor; [cbn; eauto|].
    apply Forall_app. split.
    + apply Forall_forall. intros r Hr. apply list_elem_of_In, in_map_iff in Hr.
      destruct Hr as (k & <- & _). cbn. eauto.
    + destruct Hend; repeat constructor; cbn; eauto; discriminate.
Qed.

(** C5: among the records a job publishes, those with status extracting,
    converting or zipping all carry a progress value, and these values, in
    the order of publication, never decrease. *)
Theorem progress_never_regresses fileBuffer d :
  let rs := published (runJob env jobId fileBuffer d) in
  Forall (fun r => nonTerminal (status r) = true -> is_Some (progress r)) rs /\
  StronglySorted Z.le (runningProgress rs).
Proof.
  pose proof (runJob_Published env jobId fileBuffer d) as H.
  split; [eapply Published_has_progress | eapply Published_sorted]; exact H.
Qed.

(** X16: in every record that carries both counters, published by a job
    whose walk finds what its count found, [processedFiles] is at most
    [totalFiles]. *)
Theorem processed_at_most_total fileBuffer d :
  walksAlone env jobId ->
  Forall (fun r => match processedFiles r, totalFiles r with
                   | Some processed, Some total => processed <= total
                   | _, _ => True
                   end)
         (published (runJob env jobId fileBuffer d)).
Proof.
  intros Halone.
  destruct (runJob_Published env jobId fileBuffer d)
    as [e | n total ending (items & _ & Hn & Htotal) Hend].
  - repeat constructor.
  - rewrite Halone in Hn.
    assert (Hle : (n <= total)%nat) by (destruct Htotal; lia).
    constructor; [exact I|]. constructor; [exact I|].
    apply Forall_app. split.
    + apply Forall_forall. intros r Hr. apply list_elem_of_In, in_map_iff in Hr.
      destruct Hr as (k & <- & Hk). apply in_seq in Hk. cbn. lia.
    + destruct Hend; repeat constructor; cbn; lia.
Qed.

End Job.

(** ** The exceptions of a stage *)

Section StageErrors.

Variable env : Env.
Variable jobId : string.













End StageErrors.

(** ** Failures: of one picture, and of a stage *)

Section Failures.

Variable env : Env.
Variable jobId : string.

Lemma forM__app {A} (f : A -> M unit) l1 l2 s :
  forM_ f (l1 ++ l2) s =
  match forM_ f l1 s with
  | (Ok _, s') => forM_ f l2 s'
  | (Throw e, s') => (Throw e, s')
  end.
Proof.
  revert s. induction l1 as [|x l1 IH]; intros s; [reflexivity|].
  cbn [app]. rewrite !forM__cons.
  destruct (f x s) as [[[]|e] s']; [apply IH | reflexivity].
Qed.

(** An entry that leaves the state as it was can be taken out of the
    listing. *)
Lemma forM__skip {A} (f : A -> M unit) x l1 l2 s :
  (forall s', f x s' = (Ok tt, s')) ->
  forM_ f (l1 ++ x :: l2) s = forM_ f (l1 ++ l2) s.
Proof.
  intros Hx. rewrite !forM__app.
  destruct (forM_ f l1 s) as [[[]|e] s']; [|reflexivity].
  rewrite forM__cons, Hx. reflexivity.
Qed.

Lemma failing_entry_run sourceDir outputDir name data s :
  isPng name = true ->
  fs_fault env (Stat (sourceDir ++ [name])) = None ->
  attemptFails env (sourceDir ++ [name]) outputDir name data = true ->
  processItem env jobId sourceDir outputDir (RegularFile name data) s = (Ok tt, s).
Proof.
  intros Hpng Hstat Hfail. cbn [processItem nodeName].
  rewrite bind_run, fs_run, Hstat, Hpng. unfold try_catch.
  rewrite convertEntry_run. unfold attemptFails in Hfail.
  destruct (attempt env (sourceDir ++ [name]) outputDir name data);
    [discriminate | reflexivity].
Qed.

(** C8: the walk leaves an entry classified as a picture whose conversion
    fails without exception and with the state untouched: nothing is written
    under the output directory, nothing is published, so the job is not marked
    failed, and the rest of the directory is walked as if the entry were not
    listed. *)
Theorem failed_conversion_is_absorbed
    sourceDir outputDir name data before after s :
  isPng name = true ->
  fs_fault env (Stat (sourceDir ++ [name])) = None ->
  attemptFails env (sourceDir ++ [name]) outputDir name data = true ->
  processItem env jobId sourceDir outputDir (RegularFile name data) s = (Ok tt, s) /\
  processDirectory env jobId sourceDir outputDir
    (before ++ RegularFile name data :: after) s =
  processDirectory env jobId sourceDir outputDir (before ++ after) s.
Proof.
  intros Hpng Hstat Hfail.
  split; [apply failing_entry_run; assumption|].
  unfold processDirectory. rewrite !bind_run.
  destruct (fs env (Readdir sourceDir) s) as [[[]|e] s']; [|reflexivity].
  apply forM__skip. intros s''. apply failing_entry_run; assumption.
Qed.

(** The [try] block throws what the first failing stage throws. *)
Lemma tryBlock_run fileBuffer s0 :
  tryBlock env jobId fileBuffer s0 =
  match extractStage env jobId fileBuffer s0 with
  | (Throw e, s1) => (Throw e, s1)
  | (Ok items, s1) =>
      match convertStage env jobId items s1 with
      | (Throw e, s2) => (Throw e, s2)
      | (Ok _, s2) => zipStage env jobId s2
      end
  end.
Proof. unfold tryBlock. rewrite bind_run. reflexivity. Qed.




(** C1, as amended: when no stage of the job raises an exception and its
    walk finds what its count found, no other job writing under its
    extraction directory, the job publishes one converting record per
    successful conversion, counting 1, 2, ... up to the number of convertible
    files less those whose conversion fails, and ends completed with that
    number as [processedFiles] and the number of convertible files as
    [totalFiles]. *)
Theorem completed_job_counts_conversions fileBuffer d items :
  walksAlone env jobId ->
  extractAllTo env fileBuffer = Done items ->
  fst (tryBlock env jobId fileBuffer (startState d)) = Ok tt ->
  let N := convertible items in
  let K := failing env (extractDir_of env jobId) (outputDir_of env jobId) items in
  (K <= N)%nat /\
  published (runJob env jobId fileBuffer d) =
    stageRecord env jobId extracting 0 ::
    stageRecord env jobId converting 10 ::
    convertingRecords env jobId 0 (Z.of_nat N) (N - K) ++
    [stageRecord env jobId zipping 90;
     completedRecord env jobId (Z.of_nat (N - K)) (Z.of_nat N)].
Proof.
  intros Halone Hex Hok N K.
  destruct (processFilesAsync_run env jobId fileBuffer (startState d)) as [_ Hpub].
  unfold runJob. rewrite Hpub.
  pose proof (tryBlock_outcome env jobId fileBuffer d) as H.
  destruct (tryBlock env jobId fileBuffer (startState d)) as [[[]|e] s];
    [|discriminate].
  destruct (H _ _ eq_refl) as (items' & Hex' & HK & Hs).
  rewrite Hex in Hex'. injection Hex' as <-.
  cbn zeta in HK, Hs. rewrite Halone in HK, Hs.
  split; [exact HK | exact Hs].
Qed.

End Failures.

(** C1, as stated, fails: the archive holds one convertible file, its
    conversion fails, and the job ends completed with [processedFiles] 0, not
    1; no converting record is published for the failed attempt. *)
Lemma failed_conversion_is_not_counted :
  let entries := [RegularFile "bad.png" []] in
  let env := sampleEnv entries in
  convertible entries = 1%nat /\
  failing env (extractDir_of env "1700000000000")
              (outputDir_of env "1700000000000") entries = 1%nat /\
  map (fun r => (status r, processedFiles r, totalFiles r))
      (published (runJob env "1700000000000" upload emptyDisk)) =
  [(extracting, None, None);
   (converting, None, None);
   (zipping, None, None);
   (completed, Some 0, Some 1)].
Proof. vm_compute. repeat split; reflexivity. Qed.

(** The sample archive: three convertible files, one of them failing. *)
Lemma completed_job_counts_conversions_witness :
  let env := sampleEnv sampleEntries in
  let jobId := "1700000000000" in
  let N := convertible sampleEntries in
  let K := failing env (extractDir_of env jobId) (outputDir_of env jobId)
                   sampleEntries in
  (K <= N)%nat /\
  published (runJob env jobId upload emptyDisk) =
    stageRecord env jobId extracting 0 ::
    stageRecord env jobId converting 10 ::
    convertingRecords env jobId 0 (Z.of_nat N) (N - K) ++
    [stageRecord env jobId zipping 90;
     completedRecord env jobId (Z.of_nat (N - K)) (Z.of_nat N)].
Proof.
  apply (completed_job_counts_conversions
           (sampleEnv sampleEntries) "1700000000000" upload emptyDisk sampleEntries).
  - intros items. reflexivity.
  - reflexivity.
  - vm_compute. reflexivity.
Defined.

(** The sample archive, walked as it was counted. *)
Lemma processed_at_most_total_witness :
  Forall (fun r => match processedFiles r, totalFiles r with
                   | Some processed, Some total => processed <= total
                   | _, _ => True
                   end)
         (published (runJob (sampleEnv sampleEntries) "1700000000000" upload emptyDisk)).
Proof.
  apply (processed_at_most_total (sampleEnv sampleEntries) "1700000000000"
           upload emptyDisk).
  intros items. reflexivity.
Defined.

(** C10: the code at the job of an upload with [a.png] and [sub/b.png], when
    the job of a second upload handled in the same millisecond, and so under
    the same job id, extracts [sub/c.png] and [sub/d.png] into the same
    directory while the first job awaits the conversion of [a.png].  The count
    of the first job was 2; its walk lists [sub] after that [await], finds
    three pictures there and publishes 3 of 2 and 4 of 2. *)
Theorem same_id_job_counts_beyond_total :
  let counted := [RegularFile "a.png" [Byte.x89; Byte.x50];
                  Directory "sub" [RegularFile "b.png" [Byte.x89; Byte.x50]]] in
  let found := [RegularFile "a.png" [Byte.x89; Byte.x50];
                Directory "sub" [RegularFile "b.png" [Byte.x89; Byte.x50];
                                 RegularFile "c.png" [Byte.x89; Byte.x50];
                                 RegularFile "d.png" [Byte.x89; Byte.x50]]] in
  let env := amongOthers (sampleEnv counted) found in
  let job := runJob env "1700000000000" upload emptyDisk in
  convertible counted = 2%nat /\
  map (fun r => (status r, progress r, processedFiles r, totalFiles r))
      (published job) =
    [(extracting, Some 0, None, None);
     (converting, Some 10, None, None);
     (converting, Some 45, Some 1, Some 2);
     (converting, Some 80, Some 2, Some 2);
     (converting, Some 90, Some 3, Some 2);
     (converting, Some 90, Some 4, Some 2);
     (zipping, Some 90, None, None);
     (completed, Some 100, Some 4, Some 2)] /\
  ~ Forall (fun r => match processedFiles r, totalFiles r with
                     | Some processed, Some total => processed <= total
                     | _, _ => True
                     end)
           (published job).
Proof.
  cbn zeta. split; [reflexivity|]. split; [vm_compute; reflexivity|].
  intros Hall. rewrite Forall_lookup in Hall.
  specialize (Hall 4%nat
                (convertingRecord
                   (amongOthers (sampleEnv []) []) "1700000000000" 3 2)).
  cbn in Hall. assert (H : 3 <= 2); [|lia].
  apply Hall. vm_compute. reflexivity.
Qed.

(** The empty file named as a picture, between a picture and a text file. *)
Lemma failed_conversion_is_absorbed_witness :
  let env := sampleEnv sampleEntries in
  let s := startState emptyDisk in
  processItem env "1700000000000" ["in"] ["out"] (RegularFile "bad.png" []) s =
    (Ok tt, s) /\
  processDirectory env "1700000000000" ["in"] ["out"]
    ([RegularFile "a.png" [Byte.x89; Byte.x50]] ++
     RegularFile "bad.png" [] :: [RegularFile "notes.txt" [Byte.x68; Byte.x69]]) s =
  processDirectory env "1700000000000" ["in"] ["out"]
    ([RegularFile "a.png" [Byte.x89; Byte.x50]] ++
     [RegularFile "notes.txt" [Byte.x68; Byte.x69]]) s.
Proof.
  apply (failed_conversion_is_absorbed (sampleEnv sampleEntries) "1700000000000"
           ["in"] ["out"] "bad.png" []); reflexivity.
Defined.


(** ** The server *)

Section Registry.

Variable env : Env.

Lemma setAll_snoc jobId rs r (jobs : gmap string JobRecord) :
  setAll jobId (rs ++ [r]) jobs = <[jobId := r]> (setAll jobId rs jobs).
Proof. unfold setAll. rewrite foldl_app. reflexivity. Qed.

(** After at least one [set], the record of the job is the last one set. *)
Lemma setAll_lookup jobId rs (jobs : gmap string JobRecord) :
  setAll jobId rs jobs !! jobId =
  match last rs with
  | Some r => Some r
  | None => jobs !! jobId
  end.
Proof.
  induction rs as [|r rs IH] using rev_ind; [reflexivity|].
  rewrite setAll_snoc, last_snoc. apply lookup_insert_eq.
Qed.

Lemma setAll_keeps jobId' jobId rs (jobs : gmap string JobRecord) :
  is_Some (jobs !! jobId) -> is_Some (setAll jobId' rs jobs !! jobId).
Proof.
  induction rs as [|r rs IH] using rev_ind; intros H; [exact H|].
  rewrite setAll_snoc. rewrite lookup_insert_is_Some.
  destruct (decide (jobId' = jobId)); [left; assumption | right; auto].
Qed.

Lemma setAll_lookup_ne jobId jobId' rs (jobs : gmap string JobRecord) :
  jobId <> jobId' -> setAll jobId rs jobs !! jobId' = jobs !! jobId'.
Proof.
  intros Hne. induction rs as [|r rs IH] using rev_ind; [reflexivity|].
  rewrite setAll_snoc, lookup_insert_ne by exact Hne. exact IH.
Qed.

Lemma published_head jobId fileBuffer d :
  head (published (runJob env jobId fileBuffer d)) =
  Some (stageRecord env jobId extracting 0).
Proof.
  destruct (runJob_Published env jobId fileBuffer d); reflexivity.
Qed.

(** C7, as amended: a submission leaves the registry as it was; the record
    of a job is created when its [setImmediate] callback starts, with status
    extracting and progress 0.  From then on a status request finds a record
    for the job id: after each [set] of the run, when the run is over, and
    after any later event but the clean-up timer, none of which ends the
    process. *)
Theorem record_found_once_started srv jobId buffer rest :
  immediates srv = (jobId, buffer) :: rest ->
  let job := runJob env jobId buffer (serverDisk srv) in
  (forall now file srv' jobId',
      getStatus jobId' (snd (postConvertFolderStructure now file srv')) =
      getStatus jobId' srv') /\
  head (published job) = Some (stageRecord env jobId extracting 0) /\
  (forall n r,
      last (take n (published job)) = Some r ->
      setAll jobId (take n (published job)) (processingJobs srv) !! jobId = Some r) /\
  is_Some (getStatus jobId (runImmediate env srv)) /\
  (forall ev srv',
      ev <> Timer ->
      is_Some (getStatus jobId srv') ->
      exists srv'',
        step env ev srv' = Ok srv'' /\ is_Some (getStatus jobId srv'')).
Proof.
  intros Himm job.
  pose proof (published_head jobId buffer (serverDisk srv)) as Hhead. fold job in Hhead.
  split; [intros now [file|] srv' jobId'; reflexivity|].
  split; [exact Hhead|]. split; [|split].
  - intros n r Hn. rewrite setAll_lookup, Hn. reflexivity.
  - unfold getStatus, runImmediate. rewrite Himm. cbn [processingJobs].
    fold job. rewrite setAll_lookup.
    destruct (published job) as [|r0 rs] eqn:Hp; [discriminate|].
    destruct (last (r0 :: rs)) eqn:Hl; [eauto|].
    apply last_None in Hl. discriminate.
  - intros ev srv' Hev Hfound. unfold getStatus in *.
    destruct ev as [now file | jobId' | | ]; cbn [step];
      [eexists; split; [reflexivity|] .. | contradiction].
    + unfold postConvertFolderStructure. destruct file; exact Hfound.
    + unfold getDownload.
      destruct (processingJobs srv' !! jobId') as [j|]; [|exact Hfound].
      destruct (status j); try exact Hfound.
      destruct (outputPath j); [|exact Hfound].
      destruct (fs_fault env (ReadFile l)); [exact Hfound|].
      destruct (files (serverDisk srv') !! l); exact Hfound.
    + unfold runImmediate.
      destruct (immediates srv') as [|[jobId' buffer'] rest']; [exact Hfound|].
      cbn [processingJobs]. apply setAll_keeps. exact Hfound.
Qed.

(** Two submissions handled at different readings of the clock get
    different job ids and different temp directories. *)
Lemma jobIds_differ_with_the_clock
    now1 now2 file1 file2 srv1 srv2 jobId1 jobId2 :
  now1 <> now2 ->
  fst (postConvertFolderStructure now1 (Some file1) srv1) = Some jobId1 ->
  fst (postConvertFolderStructure now2 (Some file2) srv2) = Some jobId2 ->
  jobId1 <> jobId2 /\ tempDir_of env jobId1 <> tempDir_of env jobId2.
Proof.
  intros Hnow [= <-] [= <-].
  assert (Hne : pretty now1 <> pretty now2).
  { intros H. apply Hnow. eapply (inj pretty). exact H. }
  split; [exact Hne|].
  unfold tempDir_of. intros H. apply app_inv_head in H.
  injection H as H. contradiction.
Qed.

(** C6: the code at two uploads handled while [Date.now()] reads the same
    millisecond.  Both requests are answered with the same job id, the reading
    of the clock; the two jobs wait under that one id, with the same temp,
    extraction and output directories; and when both callbacks have run, on a
    server that was idle, the registry holds a record for that id and for no
    other: one record for two jobs. *)
Theorem same_millisecond_jobs_collide now fileA fileB :
  let first := postConvertFolderStructure now (Some fileA) initialServer in
  let second := postConvertFolderStructure now (Some fileB) (snd first) in
  let idle := runImmediate env (runImmediate env (snd second)) in
  fst first = Some (pretty now) /\
  fst second = Some (pretty now) /\
  immediates (snd second) = [(pretty now, fileA); (pretty now, fileB)] /\
  map (fun job => extractDir_of env (fst job)) (immediates (snd second)) =
    [dirname env ++ ["temp"; pretty now; "extracted"];
     dirname env ++ ["temp"; pretty now; "extracted"]] /\
  immediates idle = [] /\
  forall jobId, is_Some (getStatus jobId idle) <-> jobId = pretty now.
Proof.
  cbn zeta. split; [reflexivity|]. split; [reflexivity|]. split; [reflexivity|].
  split.
  { unfold extractDir_of, tempDir_of. cbn. rewrite <- !app_assoc. reflexivity. }
  split; [reflexivity|].
  intros jobId. unfold getStatus, runImmediate, postConvertFolderStructure.
  cbn [snd immediates processingJobs serverDisk initialServer app].
  destruct (decide (jobId = pretty now)) as [-> | Hne].
  - split; [reflexivity|]. intros _.
    rewrite setAll_lookup.
    match goal with
    | |- context [published (runJob env ?j ?b ?d)] =>
        pose proof (published_head j b d) as Hhead;
        destruct (published (runJob env j b d)) as [|r rs] eqn:Hp; [discriminate|]
    end.
    destruct (last (r :: rs)) eqn:Hl; [eauto|].
    apply last_None in Hl. discriminate.
  - rewrite !setAll_lookup_ne by congruence. rewrite lookup_empty.
    split; [intros [r Hr]; discriminate | intros H; contradiction].
Qed.

End Registry.

(** Two uploads handled at 1700000000000. *)
Example same_millisecond_same_jobId :
  let first := postConvertFolderStructure 1700000000000 (Some upload) initialServer in
  let second := postConvertFolderStructure 1700000000000 (Some riff) (snd first) in
  upload <> riff /\
  fst first = Some "1700000000000" /\
  fst second = fst first /\
  immediates (snd second) =
    [("1700000000000", upload); ("1700000000000", riff)].
Proof. vm_compute. repeat split; try reflexivity. discriminate. Qed.

(** C7, as stated, fails: when the request has been answered the registry
    has no record for the job id it returned; the job waits among the
    [setImmediate] callbacks. *)
Lemma status_not_found_after_submit :
  let answered := postConvertFolderStructure 1700000000000 (Some upload) initialServer in
  fst answered = Some "1700000000000" /\
  immediates (snd answered) = [("1700000000000", upload)] /\
  getStatus "1700000000000" (snd answered) = None.
Proof. vm_compute. repeat split; reflexivity. Qed.

(** The server after one submission. *)
Lemma record_found_once_started_witness :
  let env := sampleEnv sampleEntries in
  let srv := snd (postConvertFolderStructure 1700000000000 (Some upload) initialServer) in
  let jobId := "1700000000000" in
  let job := runJob env jobId upload (serverDisk srv) in
  (forall now file srv' jobId',
      getStatus jobId' (snd (postConvertFolderStructure now file srv')) =
      getStatus jobId' srv') /\
  head (published job) = Some (stageRecord env jobId extracting 0) /\
  (forall n r,
      last (take n (published job)) = Some r ->
      setAll jobId (take n (published job)) (processingJobs srv) !! jobId = Some r) /\
  is_Some (getStatus jobId (runImmediate env srv)) /\
  (forall ev srv',
      ev <> Timer ->
      is_Some (getStatus jobId srv') ->
      exists srv'',
        step env ev srv' = Ok srv'' /\ is_Some (getStatus jobId srv'')).
Proof.
  apply (record_found_once_started (sampleEnv sampleEntries)
           (snd (postConvertFolderStructure 1700000000000 (Some upload) initialServer))
           "1700000000000" upload []).
  reflexivity.
Defined.

(** ** Sample runs *)

Example extname_samples :
  map Path.extname ["a.png"; "a.PNG"; ".png"; "a.b.png"; ".."; "a."; "noext"] =
  [".png"; ".PNG"; ""; ".png"; ""; "."; ""].
Proof. reflexivity. Qed.

Example isPng_samples :
  map isPng ["a.png"; "a.PNG"; ".png"; "a.b.pNg"; "a.webp"] =
  [true; true; false; true; false].
Proof. reflexivity. Qed.

(** Two pictures converted, one failed, one text file copied. *)
Example sample_run_published :
  map (fun r => (status r, progress r, processedFiles r, totalFiles r))
      (published (runJob (sampleEnv sampleEntries) "1700000000000" upload emptyDisk)) =
  [(extracting, Some 0, None, None);
   (converting, Some 10, None, None);
   (converting, Some 33, Some 1, Some 3);
   (converting, Some 56, Some 2, Some 3);
   (zipping, Some 90, None, None);
   (completed, Some 100, Some 2, Some 3)].
Proof. vm_compute. reflexivity. Qed.

Example sample_run_output :
  let env := sampleEnv sampleEntries in
  let out := outputDir_of env "1700000000000" in
  let written := files (disk (runJob env "1700000000000" upload emptyDisk)) in
  written !! (out ++ ["a.webp"]) = Some riff /\
  written !! (out ++ ["bad.webp"]) = None /\
  written !! (out ++ ["notes.txt"]) = Some [Byte.x68; Byte.x69] /\
  written !! (out ++ ["sub"; "c.webp"]) = Some riff /\
  written !! (outputZipPath_of env "1700000000000") = Some [Byte.x50; Byte.x4b].
Proof. vm_compute. repeat split; reflexivity. Qed.

(** An archive without pictures goes from 10 to 90 at once. *)
Example no_pictures_run :
  map (fun r => (status r, progress r, processedFiles r, totalFiles r))
      (published (runJob (sampleEnv [RegularFile "notes.txt" [Byte.x68; Byte.x69]])
                         "1700000000000" upload emptyDisk)) =
  [(extracting, Some 0, None, None);
   (converting, Some 10, None, None);
   (zipping, Some 90, None, None);
   (completed, Some 100, Some 0, Some 0)].
Proof. vm_compute. reflexivity. Qed.

(** A corrupt upload: the job fails and its temp directory is removed. *)
Example corrupt_upload_run :
  let job := runJob (sampleEnv sampleEntries) "1700000000000" [] emptyDisk in
  map (fun r => (status r, progress r, error r)) (published job) =
  [(extracting, Some 0, None);
   (failed, None, Some "Invalid or unsupported zip format. No END header found")] /\
  existsSync (tempDir_of (sampleEnv sampleEntries) "1700000000000") (disk job) = false.
Proof. vm_compute. split; reflexivity. Qed.

(** Submission, the run of the job, the download and the clean-up. *)
Example serve_one_job :
  let env := sampleEnv sampleEntries in
  let srv1 := snd (postConvertFolderStructure 1700000000000 (Some upload) initialServer) in
  let srv2 := runImmediate env srv1 in
  let srv3 := snd (getDownload env "1700000000000" srv2) in
  getStatus "1700000000000" srv1 = None /\
  (status <$> getStatus "1700000000000" srv2) = Some completed /\
  fst (getDownload env "1700000000000" srv2) = Archive [Byte.x50; Byte.x4b] /\
  timers srv3 = [("1700000000000", tempDir_of env "1700000000000")] /\
  exists srv4,
    steps env [Submit 1700000000000 (Some upload); Immediate;
               Download "1700000000000"; Timer] initialServer = Ok srv4 /\
    getStatus "1700000000000" srv4 = None /\
    existsSync (tempDir_of env "1700000000000") (serverDisk srv4) = false.
Proof.
  vm_compute. repeat split; try reflexivity.
  eexists. split; [reflexivity|]. split; reflexivity.
Qed.

(** ** Entry names *)

Section Names.

Lemma append_cons c s t : String c s +:+ t = String c (s +:+ t).
Proof. reflexivity. Qed.

Lemma append_empty_r s : s +:+ "" = s.
Proof.
  induction s as [|c s IH]; [reflexivity|]. rewrite append_cons, IH. reflexivity.
Qed.

Lemma substring_0_full s : substring 0 (String.length s) s = s.
Proof. induction s as [|c s IH]; cbn; [reflexivity | f_equal; exact IH]. Qed.

Lemma substring_split s : forall i,
  (i <= String.length s)%nat ->
  substring 0 i s +:+ substring i (String.length s - i) s = s.
Proof.
  induction s as [|c s IH]; intros [|i] Hi; cbn [String.length] in *; try lia.
  - reflexivity.
  - change (substring 0 0 (String c s)) with "".
    change (S (String.length s) - 0)%nat with (S (String.length s)).
    change (substring 0 (S (String.length s)) (String c s))
      with (String c (substring 0 (String.length s) s)).
    rewrite substring_0_full. reflexivity.
  - change (String c (substring 0 i s) +:+ substring i (String.length s - i) s = String c s).
    rewrite append_cons, IH by lia. reflexivity.
Qed.

Lemma substring_length s : forall i n,
  (i + n <= String.length s)%nat -> String.length (substring i n s) = n.
Proof.
  induction s as [|c s IH]; intros [|i] [|n] Hi; cbn in *; try lia; try reflexivity.
  - rewrite (IH 0%nat n) by lia. reflexivity.
  - apply IH. lia.
  - apply IH. lia.
Qed.

Lemma lastDot_bound s : forall k acc i,
  Path.lastDot s k acc = Some i ->
  acc = Some i \/ (k <= i < k + String.length s)%nat.
Proof.
  induction s as [|c s IH]; intros k acc i H; cbn in H; [left; exact H|].
  apply IH in H. cbn [String.length].
  destruct H as [H | H]; [|right; lia].
  destruct (Ascii.eqb c "."); [right; inversion H; lia | left; exact H].
Qed.

(** what [extname] is made of *)
Lemma extname_cases item :
  Path.extname item = "" \/
  exists i, (0 < i < String.length item)%nat /\
            Path.extname item = substring i (String.length item - i) item.
Proof.
  unfold Path.extname.
  destruct (Path.lastDot item 0 None) as [[|i]|] eqn:Hdot; auto.
  destruct (String.eqb item ".."); auto.
  right. exists (S i). split; [|reflexivity].
  apply lastDot_bound in Hdot as [H | H]; [discriminate | lia].
Qed.

(** The name without its extension, followed by the extension, is the entry
    name again. *)
Lemma name_and_extension_make_the_name item :
  Path.parse_name item +:+ Path.extname item = item.
Proof.
  unfold Path.parse_name.
  destruct (extname_cases item) as [-> | (i & Hi & ->)].
  - cbn [String.length]. rewrite Nat.sub_0_r, substring_0_full.
    apply append_empty_r.
  - rewrite substring_length by lia.
    replace (String.length item - (String.length item - i))%nat with i by lia.
    apply substring_split. lia.
Qed.

Lemma append_length s1 s2 :
  String.length (s1 +:+ s2) = (String.length s1 + String.length s2)%nat.
Proof.
  induction s1 as [|c s1 IH]; [reflexivity|].
  rewrite append_cons. cbn [String.length]. rewrite IH. reflexivity.
Qed.

Lemma lastDot_app s1 s2 : forall k acc,
  Path.lastDot (s1 +:+ s2) k acc =
  Path.lastDot s2 (k + String.length s1) (Path.lastDot s1 k acc).
Proof.
  induction s1 as [|c s1 IH]; intros k acc.
  - cbn. rewrite Nat.add_0_r. reflexivity.
  - rewrite append_cons. cbn [Path.lastDot String.length]. rewrite IH.
    f_equal. lia.
Qed.

Lemma substring_app_right s1 s2 n :
  substring (String.length s1) n (s1 +:+ s2) = substring 0 n s2.
Proof.
  induction s1 as [|c s1 IH]; [reflexivity|].
  rewrite append_cons. cbn [String.length]. exact IH.
Qed.

Lemma toLowerCase_length s :
  String.length (Path.toLowerCase s) = String.length s.
Proof. induction s as [|c s IH]; cbn; [reflexivity | rewrite IH; reflexivity]. Qed.

(** a name classified as a picture ends in a four-character extension that
    starts after the first character *)
Lemma isPng_extension item :
  isPng item = true ->
  (4 < String.length item)%nat /\
  Path.extname item = substring (String.length item - 4) 4 item /\
  Path.parse_name item = substring 0 (String.length item - 4) item.
Proof.
  unfold isPng. intros H. apply String.eqb_eq in H.
  assert (Hlen : String.length (Path.extname item) = 4%nat).
  { rewrite <- toLowerCase_length, H. reflexivity. }
  unfold Path.parse_name. rewrite Hlen.
  destruct (extname_cases item) as [He | (i & Hi & He)].
  - rewrite He in Hlen. discriminate.
  - rewrite He in Hlen. rewrite substring_length in Hlen by lia.
    split; [lia|]. split; [|reflexivity].
    rewrite He. replace (String.length item - 4)%nat with i by lia.
    f_equal. lia.
Qed.

Lemma extname_webp name :
  name <> "" -> Path.extname (name +:+ ".webp") = ".webp".
Proof.
  intros Hname. unfold Path.extname.
  rewrite lastDot_app. cbn [Nat.add].
  change (Path.lastDot ".webp" (String.length name) (Path.lastDot name 0 None))
    with (Some (String.length name)).
  destruct name as [|c name]; [contradiction|]. cbn [String.length].
  destruct (String.eqb_spec (String c name +:+ ".webp") "..") as [Heq | _].
  - apply (f_equal String.length) in Heq. rewrite append_length in Heq.
    cbn in Heq. lia.
  - rewrite append_length.
    replace (String.length (String c name) + String.length ".webp" - S (String.length name))%nat
      with 5%nat by (cbn; lia).
    change (S (String.length name)) with (String.length (String c name)).
    rewrite substring_app_right. reflexivity.
Qed.

(** X2: the output name of an entry classified as a picture has the
    extension [.webp], is itself not classified as a picture, and is the name
    the batch endpoints give by their replacement of the [.png] ending. *)
Theorem converted_name_has_webp_extension item :
  isPng item = true ->
  Path.extname (Path.parse_name item +:+ ".webp") = ".webp" /\
  isPng (Path.parse_name item +:+ ".webp") = false /\
  replacePngSuffix item = Path.parse_name item +:+ ".webp".
Proof.
  intros Hpng. destruct (isPng_extension item Hpng) as (Hlen & Hext & Hname).
  assert (Hne : Path.parse_name item <> "").
  { intros H. apply (f_equal String.length) in H. rewrite Hname in H.
    rewrite substring_length in H by lia. cbn in H. lia. }
  pose proof (extname_webp _ Hne) as Hwebp.
  split; [exact Hwebp|]. split.
  - unfold isPng. rewrite Hwebp. reflexivity.
  - unfold replacePngSuffix. unfold isPng in Hpng. rewrite Hext in Hpng.
    rewrite Hpng. destruct (Nat.leb_spec 4 (String.length item)); [|lia].
    cbn [andb]. rewrite Hname. reflexivity.
Qed.

Lemma lowerChar_dot c : Ascii.eqb (Path.lowerChar c) "." = Ascii.eqb c ".".
Proof. destruct c as [[] [] [] [] [] [] [] []]; reflexivity. Qed.

Lemma lowerChar_idem c : Path.lowerChar (Path.lowerChar c) = Path.lowerChar c.
Proof. destruct c as [[] [] [] [] [] [] [] []]; reflexivity. Qed.

Lemma toLowerCase_idem s : Path.toLowerCase (Path.toLowerCase s) = Path.toLowerCase s.
Proof.
  induction s as [|c s IH]; cbn; [reflexivity|]. rewrite lowerChar_idem, IH. reflexivity.
Qed.

Lemma lastDot_toLowerCase s : forall k acc,
  Path.lastDot (Path.toLowerCase s) k acc = Path.lastDot s k acc.
Proof.
  induction s as [|c s IH]; intros k acc; cbn; [reflexivity|].
  rewrite lowerChar_dot. apply IH.
Qed.

Lemma substring_toLowerCase s : forall i n,
  substring i n (Path.toLowerCase s) = Path.toLowerCase (substring i n s).
Proof.
  induction s as [|c s IH]; intros [|i] [|n]; cbn; try reflexivity.
  - rewrite IH. reflexivity.
  - apply IH.
  - apply IH.
Qed.

Lemma dotdot_toLowerCase s :
  String.eqb (Path.toLowerCase s) ".." = String.eqb s "..".
Proof.
  destruct s as [|c1 [|c2 [|c3 s]]]; try reflexivity; cbn.
  - destruct c1 as [[] [] [] [] [] [] [] []]; reflexivity.
  - rewrite !lowerChar_dot.
    destruct (Ascii.eqb c1 "."), (Ascii.eqb c2 "."); reflexivity.
  - rewrite !lowerChar_dot.
    destruct (Ascii.eqb c1 "."), (Ascii.eqb c2 "."); reflexivity.
Qed.

Lemma extname_toLowerCase item :
  Path.extname (Path.toLowerCase item) = Path.toLowerCase (Path.extname item).
Proof.
  unfold Path.extname.
  rewrite lastDot_toLowerCase, dotdot_toLowerCase, toLowerCase_length.
  destruct (Path.lastDot item 0 None) as [[|i]|]; try reflexivity.
  destruct (String.eqb item ".."); [reflexivity|].
  apply substring_toLowerCase.
Qed.

Lemma isPng_toLowerCase item : isPng (Path.toLowerCase item) = isPng item.
Proof.
  unfold isPng. rewrite extname_toLowerCase, toLowerCase_idem. reflexivity.
Qed.

(** X3: two names that differ only in the case of their letters are
    classified alike. *)
Theorem isPng_ignores_case item item' :
  Path.toLowerCase item = Path.toLowerCase item' -> isPng item = isPng item'.
Proof.
  intros H. rewrite <- (isPng_toLowerCase item), <- (isPng_toLowerCase item'), H.
  reflexivity.
Qed.
End Names.

(** a picture under an upper-case extension *)
Lemma converted_name_has_webp_extension_witness :
  Path.extname (Path.parse_name "Logo.PNG" +:+ ".webp") = ".webp" /\
  isPng (Path.parse_name "Logo.PNG" +:+ ".webp") = false /\
  replacePngSuffix "Logo.PNG" = Path.parse_name "Logo.PNG" +:+ ".webp".
Proof. apply (converted_name_has_webp_extension "Logo.PNG"). reflexivity. Defined.

(** two spellings of one name *)
Lemma isPng_ignores_case_witness : isPng "Logo.PNG" = isPng "logo.png".
Proof. apply (isPng_ignores_case "Logo.PNG" "logo.png"). reflexivity. Defined.

(** ** The search from any level, and the batch endpoints *)

Section Batch.

Variable env : Env.

(** X4: from any starting level the codec is called at most once per ten
    points of quality, and not at all from a level below 10, where the search
    throws at once. *)
Theorem convertToWebP_calls_bounded buffer quality :
  (length (fst (convertToWebP env buffer quality)) <= Z.to_nat (quality / 10))%nat /\
  (quality < 10 ->
   convertToWebP env buffer quality = ([], Throw CompressionFailed)).
Proof.
  split.
  - destruct (convertToWebP_searchSpec env buffer quality) as (Hlv & Hge & _).
    set (levels := fst (convertToWebP env buffer quality)) in *.
    destruct (length levels) as [|n] eqn:Hn; [lia|].
    assert (Hl : levels !! n = Some (quality - 10 * Z.of_nat n)).
    { rewrite Hlv. apply levelsFrom_lookup. lia. }
    rewrite Forall_lookup in Hge. specialize (Hge _ _ Hl). cbn in Hge.
    assert (Z.of_nat (S n) <= quality / 10); [|lia].
    apply Z.div_le_lower_bound; lia.
  - intros Hlow. simp convertToWebP.
    destruct (Z_lt_dec quality 10); [reflexivity | lia].
Qed.

Variable rt : Runtime.






End Batch.

(** A batch of a picture, an element whose path is a number, and a string;
    then the same with [null] in front. *)
Example batch_sample :
  let picture := JObject [("path", JString "icons/Logo.PNG"); ("data", JString "iVBORw0KGgo=")] in
  let numbered := JObject [("path", JNumber 7); ("data", JString "iVBORw0KGgo=")] in
  let files := [picture; numbered; JString "iVBORw0KGgo="] in
  postConvertBatch (sampleEnv []) sampleRuntime (Some (JArray files)) =
    BatchConverted
      [{| convertedPath := "icons/Logo.webp";
          convertedData := "UklGRg==";
          convertedSize := 4 |}]
      "Converted 1 files" /\
  postConvertBatch (sampleEnv []) sampleRuntime (Some (JArray (JNull :: files))) =
    BatchFailed "Cannot read properties of null (reading 'path')" /\
  postConvertBatch (sampleEnv []) sampleRuntime (Some (JString "iVBORw0KGgo=")) =
    InvalidFilesData.
Proof. vm_compute. repeat split; reflexivity. Qed.

(** ** The count *)

Section Count.

Variable env : Env.

(** X6: a count that ends without exception has added to [totalPngs] the
    number of regular files with a [.png] extension, in any case of the
    letters and at any depth, and has changed nothing else; a count an
    exception ends has added no more than that. *)
Theorem countPngs_counts_pictures dir items s :
  let s' := snd (countPngs env dir items s) in
  published s' = published s /\
  disk s' = disk s /\
  processedPngs s' = processedPngs s /\
  totalPngs s <= totalPngs s' <= totalPngs s + Z.of_nat (convertible items) /\
  (fst (countPngs env dir items s) = Ok tt ->
   totalPngs s' = totalPngs s + Z.of_nat (convertible items)).
Proof.
  destruct (countPngs_spec env dir items s) as (k & Hk & (Hp & Hd & Hpr & Ht) & Hok).
  cbn zeta. rewrite Hp, Hd, Hpr, Ht.
  repeat split; try lia. intros H. rewrite (Hok H). reflexivity.
Qed.

End Count.

(** ** What a walk and a job leave alone *)

Section Confinement.

Variable env : Env.

Lemma untouchedOutside_refl root d : untouchedOutside root d d.
Proof. intros p _. reflexivity. Qed.

Lemma untouchedOutside_trans root d d' d'' :
  untouchedOutside root d d' -> untouchedOutside root d' d'' ->
  untouchedOutside root d d''.
Proof. intros H1 H2 p Hp. rewrite (H2 p Hp). apply H1, Hp. Qed.

(** Nothing outside a directory is outside a directory above it. *)
Lemma untouchedOutside_up root sub d d' :
  root `prefix_of` sub -> untouchedOutside sub d d' -> untouchedOutside root d d'.
Proof.
  intros Hsub H p Hp. apply H. intros Hsp. apply Hp. etrans; eassumption.
Qed.

Lemma keepsFiles_trans d d' d'' :
  keepsFiles d d' -> keepsFiles d' d'' -> keepsFiles d d''.
Proof. intros H1 H2 p Hp. apply H2, H1, Hp. Qed.

Lemma Confined_up {A} root sub (m : M A) :
  root `prefix_of` sub -> Confined sub m -> Confined root m.
Proof.
  intros Hsub H s. destruct (H s) as [H1 H2].
  split; [eapply untouchedOutside_up; eassumption | exact H2].
Qed.

Lemma Confined_bind {A B} root (m : M A) (k : A -> M B) :
  Confined root m -> (forall a, Confined root (k a)) -> Confined root (m ≫= k).
Proof.
  intros Hm Hk s. rewrite bind_run. specialize (Hm s).
  destruct (m s) as [[a|e] s']; cbn [snd] in *; [|exact Hm].
  destruct Hm as [Hm1 Hm2]. destruct (Hk a s') as [Hk1 Hk2].
  split; [eapply untouchedOutside_trans | eapply keepsFiles_trans]; eassumption.
Qed.

(** A statement that leaves the disk as it is. *)
Lemma Confined_same_disk {A} root (m : M A) :
  (forall s, disk (snd (m s)) = disk s) -> Confined root m.
Proof.
  intros H s. rewrite H. split; [apply untouchedOutside_refl | intros p Hp; exact Hp].
Qed.

Lemma Confined_fs root op : Confined root (fs env op).
Proof.
  apply Confined_same_disk. intros s. rewrite fs_run.
  destruct (fs_fault env op); reflexivity.
Qed.

Lemma Confined_try_catch {A} root (m : M A) handler :
  Confined root m -> (forall e, Confined root (handler e)) ->
  Confined root (try_catch m handler).
Proof.
  intros Hm Hh s. unfold try_catch. specialize (Hm s).
  destruct (m s) as [[a|e] s']; cbn [snd] in *; [exact Hm|].
  destruct Hm as [Hm1 Hm2]. destruct (Hh e s') as [Hh1 Hh2].
  split; [eapply untouchedOutside_trans | eapply keepsFiles_trans]; eassumption.
Qed.

Lemma Confined_forM_ {A} root (f : A -> M unit) l :
  Forall (fun x => Confined root (f x)) l -> Confined root (forM_ f l).
Proof.
  induction 1 as [|x l Hx _ IH].
  - apply Confined_same_disk. reflexivity.
  - apply (Confined_bind root (f x) (fun _ => forM_ f l)); [exact Hx | intros _; exact IH].
Qed.

Lemma Confined_mkdirSync root p : Confined root (mkdirSync env p).
Proof.
  apply Confined_bind; [apply Confined_fs|]. intros _ s.
  split; intros q Hq; [reflexivity | exact Hq].
Qed.

(** Writing a file under the directory. *)
Lemma Confined_write root p data :
  root `prefix_of` p ->
  Confined root
    (onDisk (fun d => {| dirs := dirs d; files := <[p := data]> (files d) |})).
Proof.
  intros Hp s. split; intros q Hq; cbn.
  - apply lookup_insert_ne. intros ->. contradiction.
  - apply lookup_insert_is_Some.
    destruct (decide (p = q)); [left; assumption | right; auto].
Qed.

Lemma prefix_snoc (root : path) name : root `prefix_of` root ++ [name].
Proof. exists [name]. reflexivity. Qed.

Lemma Confined_convertEntry jobId sourcePath outputDir name data :
  Confined outputDir (convertEntry env jobId sourcePath outputDir name data).
Proof.
  unfold convertEntry, readFileSync, writeFileSync.
  apply Confined_bind.
  { apply Confined_bind; [apply Confined_fs|]. intros _. apply Confined_same_disk. reflexivity. }
  intros fileBuffer. apply Confined_bind; [apply Confined_same_disk; reflexivity|].
  intros webpBuffer. cbn zeta. apply Confined_bind.
  { apply Confined_bind; [apply Confined_fs|]. intros _.
    apply Confined_write, prefix_snoc. }
  intros _. apply Confined_bind; [apply Confined_same_disk; reflexivity|].
  intros _. apply Confined_bind; [apply Confined_same_disk; reflexivity|].
  intros s. apply Confined_same_disk. reflexivity.
Qed.

Lemma Confined_processItem jobId item :
  forall sourceDir outputDir,
    Confined outputDir (processItem env jobId sourceDir outputDir item).
Proof.
  induction item as [name items IH | name data] using node_tree_ind;
    intros sourceDir outputDir; cbn [processItem nodeName].
  - apply Confined_bind; [apply Confined_fs|]. intros _.
    apply Confined_bind; [apply Confined_mkdirSync|]. intros _.
    apply Confined_bind; [apply Confined_fs|]. intros _.
    apply (Confined_up outputDir (outputDir ++ [name])); [apply prefix_snoc|].
    apply Confined_forM_. eapply Forall_impl; [exact IH|].
    intros item Hitem. apply Hitem.
  - apply Confined_bind; [apply Confined_fs|]. intros _.
    destruct (isPng name).
    + apply Confined_try_catch; [apply Confined_convertEntry|].
      intros e. apply Confined_same_disk. reflexivity.
    + unfold copyFileSync. apply Confined_bind; [apply Confined_fs|]. intros _.
      apply Confined_write, prefix_snoc.
Qed.

(** X7: the walk writes under its output directory only: every file outside
    it is as before, and no file that existed is missing afterwards, however
    the walk ends. *)
Theorem processDirectory_stays_in_outputDir jobId sourceDir outputDir items s :
  let d' := disk (snd (processDirectory env jobId sourceDir outputDir items s)) in
  (forall p, ~ outputDir `prefix_of` p -> files d' !! p = files (disk s) !! p) /\
  (forall p, is_Some (files (disk s) !! p) -> is_Some (files d' !! p)).
Proof.
  assert (H : Confined outputDir (processDirectory env jobId sourceDir outputDir items)).
  { unfold processDirectory. apply Confined_bind; [apply Confined_fs|]. intros _.
    apply Confined_forM_, Forall_forall. intros item _. apply Confined_processItem. }
  exact (H s).
Qed.

Lemma prefix_tempDir jobId name : tempDir_of env jobId `prefix_of` tempDir_of env jobId ++ [name].
Proof. apply prefix_snoc. Qed.

Lemma Confined_countPngs root dir items : Confined root (countPngs env dir items).
Proof.
  apply Confined_same_disk. intros s.
  destruct (countPngs_spec env dir items s) as (k & _ & (_ & Hd & _) & _). exact Hd.
Qed.

Lemma Confined_tryBlock jobId fileBuffer :
  Confined (tempDir_of env jobId) (tryBlock env jobId fileBuffer).
Proof.
  unfold tryBlock, extractStage, convertStage, zipStage.
  apply Confined_bind.
  { apply Confined_bind; [apply Confined_same_disk; reflexivity|]. intros _.
    apply Confined_bind; [apply Confined_mkdirSync|]. intros _.
    apply Confined_bind; [apply Confined_mkdirSync|]. intros _.
    apply Confined_same_disk. reflexivity. }
  intros items. apply Confined_bind.
  { apply Confined_bind; [apply Confined_same_disk; reflexivity|]. intros _.
    apply Confined_bind; [apply Confined_countPngs|]. intros _.
    apply (Confined_up _ (outputDir_of env jobId)); [apply prefix_tempDir|].
    unfold processDirectory. apply Confined_bind; [apply Confined_fs|]. intros _.
    apply Confined_forM_, Forall_forall. intros item _. apply Confined_processItem. }
  intros _. apply Confined_bind; [apply Confined_same_disk; reflexivity|]. intros _.
  apply Confined_bind; [apply Confined_same_disk; reflexivity|]. intros s.
  apply Confined_bind; [apply Confined_same_disk; reflexivity|]. intros zipBuffer.
  apply Confined_bind; [apply Confined_write, prefix_tempDir|]. intros _.
  apply Confined_bind; [apply Confined_same_disk; reflexivity|]. intros s'.
  apply Confined_same_disk. reflexivity.
Qed.

Lemma removeTree_outside root d : untouchedOutside root d (removeTree root d).
Proof.
  intros p Hp. unfold removeTree. cbn [files].
  destruct (files d !! p) as [v|] eqn:Hv.
  - apply map_lookup_filter_Some. split; [exact Hv | exact Hp].
  - apply map_lookup_filter_None. left. exact Hv.
Qed.

Lemma cleanedUp_outside jobId d :
  untouchedOutside (tempDir_of env jobId) d (cleanedUp env jobId d).
Proof.
  unfold cleanedUp. destruct (existsSync _ d); [|apply untouchedOutside_refl].
  destruct (fs_fault env (Rm _)); [apply untouchedOutside_refl | apply removeTree_outside].
Qed.

Lemma runJob_outside jobId fileBuffer d :
  untouchedOutside (tempDir_of env jobId) d (disk (runJob env jobId fileBuffer d)).
Proof.
  destruct (Confined_tryBlock jobId fileBuffer (startState d)) as [Htry _].
  cbn [disk startState] in Htry.
  unfold runJob, processFilesAsync, try_catch.
  destruct (tryBlock env jobId fileBuffer (startState d)) as [[[]|e] s] eqn:Hrun;
    cbn [snd] in *; [exact Htry|].
  unfold catchBlock. rewrite bind_run, publish_run. cbn beta iota.
  rewrite cleanUp_run. cbn [snd disk].
  eapply untouchedOutside_trans; [exact Htry|].
  apply (cleanedUp_outside jobId (disk s)).
Qed.

(** X8: the run of a job changes the registry at its own job id only and the
    files under its own temp directory only, whether it ends completed or
    failed; the records and files of other jobs are as before. *)
Theorem job_touches_only_its_own srv jobId buffer rest :
  immediates srv = (jobId, buffer) :: rest ->
  (forall jobId', jobId' <> jobId ->
     getStatus jobId' (runImmediate env srv) = getStatus jobId' srv) /\
  (forall p, ~ tempDir_of env jobId `prefix_of` p ->
     files (serverDisk (runImmediate env srv)) !! p = files (serverDisk srv) !! p) /\
  immediates (runImmediate env srv) = rest /\
  timers (runImmediate env srv) = timers srv.
Proof.
  intros Himm. unfold runImmediate, getStatus. rewrite Himm.
  cbn [processingJobs serverDisk immediates timers].
  split; [|split; [|split; reflexivity]].
  - intros jobId' Hne. apply setAll_lookup_ne. congruence.
  - apply runJob_outside.
Qed.

End Confinement.

(** a second job waiting behind the first *)
Lemma job_touches_only_its_own_witness :
  let env := sampleEnv sampleEntries in
  let srv := snd (postConvertFolderStructure 1700000000001 (Some upload)
                    (snd (postConvertFolderStructure 1700000000000 (Some upload)
                            initialServer))) in
  (forall jobId', jobId' <> "1700000000000" ->
     getStatus jobId' (runImmediate env srv) = getStatus jobId' srv) /\
  (forall p, ~ tempDir_of env "1700000000000" `prefix_of` p ->
     files (serverDisk (runImmediate env srv)) !! p = files (serverDisk srv) !! p) /\
  immediates (runImmediate env srv) = [("1700000000001", upload)] /\
  timers (runImmediate env srv) = timers srv.
Proof.
  apply (job_touches_only_its_own (sampleEnv sampleEntries)
           (snd (postConvertFolderStructure 1700000000001 (Some upload)
                   (snd (postConvertFolderStructure 1700000000000 (Some upload)
                           initialServer))))
           "1700000000000" upload [("1700000000001", upload)]).
  reflexivity.
Defined.

(** ** Download and clean-up *)

Section Download.

Variable env : Env.

(** The last stage, when it ends without exception: the archive is on disk
    and the completed record is published. *)
Lemma zipStage_run jobId s s' :
  zipStage env jobId s = (Ok tt, s') ->
  exists zipBuffer,
    writeZip env (outputDir_of env jobId) (files (disk s)) = Done zipBuffer /\
    files (disk s') = <[outputZipPath_of env jobId := zipBuffer]> (files (disk s)) /\
    last (published s') =
      Some (completedRecord env jobId (processedPngs s) (totalPngs s)).
Proof.
  unfold zipStage. rewrite bind_run, publish_run. cbn beta iota.
  rewrite bind_run. unfold getState at 1. cbn beta iota.
  rewrite bind_run. unfold settle at 1. cbn [disk].
  destruct (writeZip env (outputDir_of env jobId) (files (disk s)))
    as [zipBuffer | msg]; cbn [raised]; [|discriminate].
  intros [= <-]. exists zipBuffer. split; [reflexivity|]. split.
  - reflexivity.
  - cbn [published]. apply last_snoc.
Qed.

Lemma removeTree_gone root d : existsSync root (removeTree root d) = false.
Proof.
  unfold existsSync, removeTree. cbn [dirs files].
  apply orb_false_intro; apply bool_decide_eq_false.
  - rewrite elem_of_filter. intros [Hn _]. apply Hn. reflexivity.
  - intros [v Hv]. apply map_lookup_filter_Some in Hv as [_ Hn].
    apply Hn. reflexivity.
Qed.

(** X9: after the run of a job that no exception ended and that was alone
    in its directories, a download of the job answers with the bytes the
    archive library made of the files that were on disk when the walk ended,
    the same bytes that were written to [converted.zip]; the other files are
    as the walk left them; the download leaves the registry as it is and sets
    one clean-up timer for the job's temp directory. *)
Theorem download_returns_the_archive srv jobId buffer rest :
  walksAlone env jobId ->
  immediates srv = (jobId, buffer) :: rest ->
  fst (tryBlock env jobId buffer (startState (serverDisk srv))) = Ok tt ->
  fs_fault env (ReadFile (outputZipPath_of env jobId)) = None ->
  let srv' := runImmediate env srv in
  exists items s1 s2 zipBuffer,
    extractStage env jobId buffer (startState (serverDisk srv)) = (Ok items, s1) /\
    convertStage env jobId items s1 = (Ok tt, s2) /\
    writeZip env (outputDir_of env jobId) (files (disk s2)) = Done zipBuffer /\
    files (serverDisk srv') = <[outputZipPath_of env jobId := zipBuffer]> (files (disk s2)) /\
    (status <$> getStatus jobId srv') = Some completed /\
    fst (getDownload env jobId srv') = Archive zipBuffer /\
    processingJobs (snd (getDownload env jobId srv')) = processingJobs srv' /\
    timers (snd (getDownload env jobId srv')) =
      timers srv ++ [(jobId, tempDir_of env jobId)].
Proof.
  intros _ Himm Hok Hread srv'.
  rewrite tryBlock_run in Hok.
  destruct (extractStage env jobId buffer (startState (serverDisk srv)))
    as [[items|e] s1] eqn:H1; [|discriminate].
  destruct (convertStage env jobId items s1) as [[[]|e] s2] eqn:H2; [|discriminate].
  destruct (zipStage env jobId s2) as [[[]|e] s3] eqn:H3; [|discriminate].
  destruct (zipStage_run jobId s2 s3 H3) as (zipBuffer & Hzip & Hfiles & Hlast).
  assert (Hfile : files (disk s3) !! outputZipPath_of env jobId = Some zipBuffer)
    by (rewrite Hfiles; apply lookup_insert_eq).
  assert (Hjob : runJob env jobId buffer (serverDisk srv) = s3).
  { unfold runJob, processFilesAsync, try_catch. rewrite tryBlock_run, H1, H2, H3.
    reflexivity. }
  assert (Hreg : processingJobs srv' !! jobId =
                 Some (completedRecord env jobId (processedPngs s2) (totalPngs s2))).
  { unfold srv', runImmediate. rewrite Himm. cbn [processingJobs].
    rewrite setAll_lookup, Hjob, Hlast. reflexivity. }
  assert (Hdisk : serverDisk srv' = disk s3).
  { unfold srv', runImmediate. rewrite Himm. cbn [serverDisk]. rewrite Hjob. reflexivity. }
  assert (Htimers : timers srv' = timers srv).
  { unfold srv', runImmediate. rewrite Himm. reflexivity. }
  exists items, s1, s2, zipBuffer.
  split; [reflexivity|]. split; [exact H2|].
  split; [exact Hzip|]. split; [rewrite Hdisk; exact Hfiles|].
  split; [unfold getStatus; rewrite Hreg; reflexivity|].
  unfold getDownload. rewrite Hreg. cbn [status outputPath tempDir completedRecord].
  rewrite Hread, Hdisk, Hfile. cbn [fst snd processingJobs timers].
  rewrite Htimers. repeat split.
Qed.

(** X10: when the clean-up timer of a download fires and the removal of an
    existing temp directory raises, the exception leaves the callback, which
    has no [try]; otherwise the job is forgotten: status and download answer
    "not found" for its id, the records of other ids stay, the directory is
    gone and the files outside it are as before. *)
Theorem cleanup_timer_forgets_the_job srv jobId dir rest :
  timers srv = (jobId, dir) :: rest ->
  (forall msg,
      existsSync dir (serverDisk srv) = true ->
      fs_fault env (Rm dir) = Some msg ->
      runTimer env srv = Throw (FilesystemError msg)) /\
  (existsSync dir (serverDisk srv) = false \/ fs_fault env (Rm dir) = None ->
   exists srv',
     runTimer env srv = Ok srv' /\
     getStatus jobId srv' = None /\
     getDownload env jobId srv' = (FileNotReady, srv') /\
     (forall jobId', jobId' <> jobId -> getStatus jobId' srv' = getStatus jobId' srv) /\
     timers srv' = rest /\
     existsSync dir (serverDisk srv') = false /\
     forall p, ~ dir `prefix_of` p ->
               files (serverDisk srv') !! p = files (serverDisk srv) !! p).
Proof.
  intros Ht. unfold runTimer. rewrite Ht. split.
  { intros msg -> ->. reflexivity. }
  assert (Hgone : delete jobId (processingJobs srv) !! jobId = None)
    by apply lookup_delete_eq.
  assert (Hothers : forall jobId', jobId' <> jobId ->
            delete jobId (processingJobs srv) !! jobId' = processingJobs srv !! jobId').
  { intros jobId' Hne. apply lookup_delete_ne. congruence. }
  intros Hcase.
  destruct (existsSync dir (serverDisk srv)) eqn:Hex.
  - destruct Hcase as [Hcase | Hrm]; [discriminate|]. rewrite Hrm.
    eexists. split; [reflexivity|].
    split; [exact Hgone|]. split.
    { unfold getDownload. cbn [processingJobs]. rewrite Hgone. reflexivity. }
    split; [exact Hothers|]. split; [reflexivity|].
    split; [apply removeTree_gone | apply removeTree_outside].
  - eexists. split; [reflexivity|].
    split; [exact Hgone|]. split.
    { unfold getDownload. cbn [processingJobs]. rewrite Hgone. reflexivity. }
    split; [exact Hothers|]. split; [reflexivity|].
    split; [exact Hex | reflexivity].
Qed.

End Download.

(** A temp directory that cannot be removed: the timer's exception is caught
    by nothing, while the same failure in the [catch] block of a job is. *)
Example cleanup_timer_uncaught :
  let env := lockedDisk (sampleEnv sampleEntries) "EPERM: operation not permitted" in
  steps env [Submit 1700000000000 (Some upload); Immediate;
             Download "1700000000000"; Timer] initialServer =
    Throw (FilesystemError "EPERM: operation not permitted") /\
  fst (processFilesAsync env "1700000000000" [] (startState emptyDisk)) = Ok tt.
Proof. vm_compute. split; reflexivity. Qed.

(** the sample archive, submitted and converted *)
Lemma download_returns_the_archive_witness :
  let env := sampleEnv sampleEntries in
  let jobId := "1700000000000" in
  let srv := snd (postConvertFolderStructure 1700000000000 (Some upload) initialServer) in
  let srv' := runImmediate env srv in
  exists items s1 s2 zipBuffer,
    extractStage env jobId upload (startState (serverDisk srv)) = (Ok items, s1) /\
    convertStage env jobId items s1 = (Ok tt, s2) /\
    writeZip env (outputDir_of env jobId) (files (disk s2)) = Done zipBuffer /\
    files (serverDisk srv') = <[outputZipPath_of env jobId := zipBuffer]> (files (disk s2)) /\
    (status <$> getStatus jobId srv') = Some completed /\
    fst (getDownload env jobId srv') = Archive zipBuffer /\
    processingJobs (snd (getDownload env jobId srv')) = processingJobs srv' /\
    timers (snd (getDownload env jobId srv')) =
      timers srv ++ [(jobId, tempDir_of env jobId)].
Proof.
  apply (download_returns_the_archive (sampleEnv sampleEntries)
           (snd (postConvertFolderStructure 1700000000000 (Some upload) initialServer))
           "1700000000000" upload []).
  - intros items. reflexivity.
  - reflexivity.
  - vm_compute. reflexivity.
  - reflexivity.
Defined.

(** the server after the download of the sample job *)
Lemma cleanup_timer_forgets_the_job_witness :
  let env := sampleEnv sampleEntries in
  let jobId := "1700000000000" in
  let dir := tempDir_of env jobId in
  let srv := snd (getDownload env jobId
                    (runImmediate env
                       (snd (postConvertFolderStructure 1700000000000 (Some upload)
                               initialServer)))) in
  (forall msg,
      existsSync dir (serverDisk srv) = true ->
      fs_fault env (Rm dir) = Some msg ->
      runTimer env srv = Throw (FilesystemError msg)) /\
  (existsSync dir (serverDisk srv) = false \/ fs_fault env (Rm dir) = None ->
   exists srv',
     runTimer env srv = Ok srv' /\
     getStatus jobId srv' = None /\
     getDownload env jobId srv' = (FileNotReady, srv') /\
     (forall jobId', jobId' <> jobId -> getStatus jobId' srv' = getStatus jobId' srv) /\
     timers srv' = [] /\
     existsSync dir (serverDisk srv') = false /\
     forall p, ~ dir `prefix_of` p ->
               files (serverDisk srv') !! p = files (serverDisk srv) !! p).
Proof.
  apply (cleanup_timer_forgets_the_job (sampleEnv sampleEntries)
           (snd (getDownload (sampleEnv sampleEntries) "1700000000000"
                   (runImmediate (sampleEnv sampleEntries)
                      (snd (postConvertFolderStructure 1700000000000 (Some upload)
                              initialServer)))))
           "1700000000000" (tempDir_of (sampleEnv sampleEntries) "1700000000000") []).
  vm_compute. reflexivity.
Defined.

(** ** The synchronous folder endpoint *)

Section SyncFolder.

Variable env : Env.

(** Without the [try] of the job engine, the failure of an entry is the
    failure of the walk. *)
Lemma processItemSync_no_failure item :
  forall sourceDir outputDir s,
    fst (processItemSync env sourceDir outputDir item s) = Ok tt ->
    failingIn env sourceDir outputDir item = 0%nat.
Proof.
  induction item as [name items IH | name data] using node_tree_ind;
    intros sourceDir outputDir s; cbn [processItemSync nodeName failingIn].
  - rewrite bind_run, fs_run.
    destruct (fs_fault env (Stat _)); [discriminate|].
    rewrite bind_run. destruct (mkdirSync env (outputDir ++ [name]) s) as [[[]|e] s1];
      [|discriminate].
    rewrite bind_run, fs_run. destruct (fs_fault env (Readdir _)); [discriminate|].
    revert s1. induction IH as [|item items Hitem _ IHitems]; intros s1; [reflexivity|].
    rewrite forM__cons. cbn [map list_sum fold_right].
    destruct (processItemSync env (sourceDir ++ [name]) (outputDir ++ [name]) item s1)
      as [[[]|e] s2] eqn:Hrun; [|discriminate].
    intros Hrest. rewrite (Hitem _ _ s1) by (rewrite Hrun; reflexivity).
    apply (IHitems s2 Hrest).
  - rewrite bind_run, fs_run.
    destruct (fs_fault env (Stat _)); [discriminate|].
    destruct (isPng name); [|reflexivity]. cbn [andb].
    unfold attemptFails, attempt, readFileSync, writeFileSync.
    rewrite !bind_run, fs_run.
    destruct (fs_fault env (ReadFile _)); [discriminate|].
    unfold mret, M_ret. cbn beta iota. rewrite bind_run. unfold settle.
    destruct (snd (convertToWebP env data 90)); [|discriminate].
    rewrite bind_run, fs_run.
    destruct (fs_fault env (WriteFile _)); [discriminate | reflexivity].
Qed.

Lemma processDirectorySync_no_failure sourceDir outputDir items s :
  fst (processDirectorySync env sourceDir outputDir items s) = Ok tt ->
  failing env sourceDir outputDir items = 0%nat.
Proof.
  unfold processDirectorySync, failing. rewrite bind_run, fs_run.
  destruct (fs_fault env (Readdir sourceDir)); [discriminate|].
  revert s. induction items as [|item items IH]; intros s; [reflexivity|].
  rewrite forM__cons. cbn [map list_sum fold_right].
  destruct (processItemSync env sourceDir outputDir item s) as [[[]|e] s'] eqn:Hrun;
    [|discriminate].
  intros Hrest.
  rewrite (processItemSync_no_failure item sourceDir outputDir s)
    by (rewrite Hrun; reflexivity).
  apply (IH s' Hrest).
Qed.

(** X11: the synchronous endpoint sends an archive only when the upload was
    extracted and every convertible file of it was converted: one failing
    picture makes the whole request fail, where the job engine would leave the
    picture out. *)
Theorem sync_folder_is_all_or_nothing now fileBuffer d zipBuffer d' :
  postConvertFolderStructureSync env now (Some fileBuffer) d = (ZipSent zipBuffer, d') ->
  exists items written,
    extractAllTo env fileBuffer = Done items /\
    failing env (extractDir_of env (pretty now)) (outputDir_of env (pretty now)) items
      = 0%nat /\
    writeZip env (outputDir_of env (pretty now)) written = Done zipBuffer.
Proof.
  unfold postConvertFolderStructureSync. cbn zeta.
  destruct ((mkdirSync env _ ;; mkdirSync env _) (startState d)) as [[[]|e] s];
    [|discriminate].
  unfold convertFolder. rewrite bind_run. unfold settle at 1.
  destruct (extractAllTo env fileBuffer) as [items | msg]; cbn [raised];
    [|destruct (removeTempDir env (pretty now) s) as [[[]|e2] s2]; discriminate].
  rewrite bind_run.
  destruct (processDirectorySync env _ _ items s) as [[[]|e] s1] eqn:Hwalk;
    [|destruct (removeTempDir env (pretty now) s1) as [[[]|e2] s2]; discriminate].
  rewrite bind_run. unfold getState at 1. cbn beta iota. unfold settle.
  destruct (writeZip env _ (files (disk s1))) as [z | msg] eqn:Hzip; cbn [raised];
    [|destruct (removeTempDir env (pretty now) s1) as [[[]|e2] s2]; discriminate].
  intros [= <- _]. exists items, (files (disk s1)).
  split; [reflexivity|]. split; [|exact Hzip].
  apply (processDirectorySync_no_failure _ _ items s). rewrite Hwalk. reflexivity.
Qed.

Lemma removeTempDir_gone jobId s :
  fs_fault env (Rm (tempDir_of env jobId)) = None ->
  fst (removeTempDir env jobId s) = Ok tt /\
  existsSync (tempDir_of env jobId) (disk (snd (removeTempDir env jobId s))) = false.
Proof.
  intros Hrm. unfold removeTempDir. rewrite bind_run. unfold getState. cbn beta iota.
  destruct (existsSync (tempDir_of env jobId) (disk s)) eqn:Hex.
  - rewrite bind_run, fs_run, Hrm. cbn. split; [reflexivity | apply removeTree_gone].
  - split; [reflexivity | exact Hex].
Qed.

(** X12: once its two directories are made, the synchronous endpoint leaves no
    temp directory behind, whether it sends the archive or an error, unless
    the removal itself raises. *)
Theorem sync_folder_removes_its_tempDir now fileBuffer d :
  fs_fault env (Mkdir (extractDir_of env (pretty now))) = None ->
  fs_fault env (Mkdir (outputDir_of env (pretty now))) = None ->
  fs_fault env (Rm (tempDir_of env (pretty now))) = None ->
  existsSync (tempDir_of env (pretty now))
    (snd (postConvertFolderStructureSync env now (Some fileBuffer) d)) = false.
Proof.
  intros Hm1 Hm2 Hrm. unfold postConvertFolderStructureSync. cbn zeta.
  assert (Hmk : exists s, (mkdirSync env (extractDir_of env (pretty now)) ;;
                           mkdirSync env (outputDir_of env (pretty now)))
                            (startState d) = (Ok tt, s)).
  { unfold mkdirSync. rewrite !bind_run, !fs_run, Hm1. unfold onDisk at 1.
    cbn beta iota. rewrite bind_run, fs_run, Hm2. eexists. reflexivity. }
  destruct Hmk as [s ->].
  destruct (convertFolder env (pretty now) fileBuffer s) as [[z|e] s1].
  - cbn [snd]. apply removeTempDir_gone, Hrm.
  - destruct (removeTempDir_gone (pretty now) s1 Hrm) as [Hok Hgone].
    destruct (removeTempDir env (pretty now) s1) as [[[]|e2] s2];
      cbn [fst snd] in *; [exact Hgone | discriminate].
Qed.

End SyncFolder.

(** the sample archive without its empty picture *)
Lemma sync_folder_is_all_or_nothing_witness :
  let env := sampleEnv [RegularFile "a.png" [Byte.x89; Byte.x50];
                        RegularFile "notes.txt" [Byte.x68; Byte.x69]] in
  exists items written,
    extractAllTo env upload = Done items /\
    failing env (extractDir_of env (pretty 1700000000000))
                (outputDir_of env (pretty 1700000000000)) items = 0%nat /\
    writeZip env (outputDir_of env (pretty 1700000000000)) written =
      Done [Byte.x50; Byte.x4b].
Proof.
  eapply (sync_folder_is_all_or_nothing
            (sampleEnv [RegularFile "a.png" [Byte.x89; Byte.x50];
                        RegularFile "notes.txt" [Byte.x68; Byte.x69]])
            1700000000000 upload emptyDisk [Byte.x50; Byte.x4b]).
  vm_compute. reflexivity.
Defined.

(** the sample archive, whose empty picture fails the request *)
Lemma sync_folder_removes_its_tempDir_witness :
  existsSync (tempDir_of (sampleEnv sampleEntries) (pretty 1700000000000))
    (snd (postConvertFolderStructureSync (sampleEnv sampleEntries) 1700000000000
            (Some upload) emptyDisk)) = false.
Proof.
  apply (sync_folder_removes_its_tempDir (sampleEnv sampleEntries)
           1700000000000 upload emptyDisk); reflexivity.
Defined.

Example sync_folder_fails_on_the_sample :
  fst (postConvertFolderStructureSync (sampleEnv sampleEntries) 1700000000000
         (Some upload) emptyDisk) = FolderError "Input Buffer is empty".
Proof. vm_compute. reflexivity. Qed.

(** ** The command-line converter *)

Section CommandLine.

Variable env : Env.

(** The search of the command-line converter is the search of the server:
    what the one returns the other saves, and where the one gives up the
    other returns without a word. *)
Lemma convertWithQuality_run input outputPath quality s :
  convertWithQuality env input outputPath quality s =
  match snd (convertToWebP env input quality) with
  | Ok data => saveOutput env outputPath data s
  | Throw CompressionFailed => (Ok tt, s)
  | Throw e => (Throw e, s)
  end.
Proof.
  funelim (convertToWebP env input quality); simp convertWithQuality;
    clear Heqcall; cbn [snd].
  - destruct (Z_lt_dec quality 10); [reflexivity | lia].
  - destruct (Z_lt_dec quality 10); [lia|]. cbn. rewrite Heq. reflexivity.
  - destruct (Z_lt_dec quality 10); [lia|]. cbn. rewrite Heq0. cbn.
    destruct (Z_lt_dec maxSize (byteLength webpBuffer)); [|lia]. cbn. apply H.
  - destruct (Z_lt_dec quality 10); [lia|]. cbn. rewrite Heq0. cbn.
    destruct (Z_lt_dec maxSize (byteLength webpBuffer)); [lia|]. reflexivity.
Qed.

(** Saving raises at most an error of the file system, and changes at most
    the file at the output path. *)
Lemma saveOutput_run outputPath data s :
  (fst (saveOutput env outputPath data s) = Ok tt \/
   exists msg, fst (saveOutput env outputPath data s) = Throw (FilesystemError msg)) /\
  (files (disk (snd (saveOutput env outputPath data s))) = files (disk s) \/
   files (disk (snd (saveOutput env outputPath data s))) =
     <[outputPath := data]> (files (disk s))).
Proof.
  unfold saveOutput. cbn zeta. rewrite bind_run. unfold getState. cbn beta iota.
  rewrite bind_run.
  assert (Hwrite : forall s1,
    fst (try_catch (writeFileSync env outputPath data) (fun _ => mret tt) s1) = Ok tt /\
    (files (disk (snd (try_catch (writeFileSync env outputPath data) (fun _ => mret tt) s1)))
       = files (disk s1) \/
     files (disk (snd (try_catch (writeFileSync env outputPath data) (fun _ => mret tt) s1)))
       = <[outputPath := data]> (files (disk s1)))).
  { intros s1. unfold try_catch, writeFileSync. rewrite bind_run, fs_run.
    destruct (fs_fault env (WriteFile outputPath)); cbn; auto. }
  destruct (existsSync (removelast outputPath) (disk s)).
  - unfold mret at 1 3 5, M_ret at 1 3 5. cbn beta iota.
    destruct (Hwrite s) as [H1 H2]. split; [left; exact H1 | exact H2].
  - unfold mkdirSync. rewrite bind_run, fs_run.
    destruct (fs_fault env (Mkdir _)) as [msg|]; cbn beta iota.
    + split; [right; exists msg; reflexivity | left; reflexivity].
    + match goal with
      | |- context [onDisk ?f s] =>
          set (s1 := snd (onDisk f s)); change (onDisk f s) with (Ok tt, s1)
      end.
      cbn beta iota. destruct (Hwrite s1) as [H1 H2].
      split; [left; exact H1 | exact H2].
Qed.

Lemma convertWithQuality_writes input outputPath quality s p :
  let s' := snd (convertWithQuality env input outputPath quality s) in
  files (disk s') !! p = files (disk s) !! p \/
  (p = outputPath /\
   exists data, files (disk s') !! p = Some data /\ byteLength data <= maxSize).
Proof.
  cbn zeta. rewrite convertWithQuality_run.
  destruct (convertToWebP_searchSpec env input quality) as (_ & _ & _ & Hres).
  destruct (snd (convertToWebP env input quality)) as [data | [ | msg | msg | msg]];
    try (left; reflexivity).
  destruct Hres as (l & _ & _ & Hsize).
  destruct (saveOutput_run outputPath data s) as [_ [-> | ->]]; [left; reflexivity|].
  destruct (decide (outputPath = p)) as [<- | Hne].
  - right. split; [reflexivity|]. exists data.
    split; [apply lookup_insert_eq | exact Hsize].
  - left. apply lookup_insert_ne. exact Hne.
Qed.

(** X13: [convertWithQuality] of the command line tries the levels the
    server's [convertToWebP] tries: it saves what that search returns, passes
    on the error of the codec, and where that search throws
    [CompressionFailed] it returns without saving; it never throws that error
    itself, and the only file it can change is the one at its output path,
    which then holds a buffer within the ceiling. *)
Theorem convertWithQuality_follows_the_search input outputPath quality s :
  convertWithQuality env input outputPath quality s =
    match snd (convertToWebP env input quality) with
    | Ok data => saveOutput env outputPath data s
    | Throw CompressionFailed => (Ok tt, s)
    | Throw e => (Throw e, s)
    end /\
  fst (convertWithQuality env input outputPath quality s) <> Throw CompressionFailed /\
  forall p,
    files (disk (snd (convertWithQuality env input outputPath quality s))) !! p =
      files (disk s) !! p \/
    (p = outputPath /\
     exists data,
       files (disk (snd (convertWithQuality env input outputPath quality s))) !! p =
         Some data /\
       byteLength data <= maxSize).
Proof.
  split; [apply convertWithQuality_run|].
  split; [|intros p; apply convertWithQuality_writes].
  rewrite convertWithQuality_run.
  destruct (snd (convertToWebP env input quality)) as [data | [ | msg | msg | msg]];
    try discriminate.
  destruct (saveOutput_run outputPath data s) as [[-> | [msg ->]] _]; discriminate.
Qed.

Lemma onlyPictures_refl d : onlyPictures d d.
Proof. intros p. left. reflexivity. Qed.

Lemma onlyPictures_trans d d' d'' :
  onlyPictures d d' -> onlyPictures d' d'' -> onlyPictures d d''.
Proof.
  intros H1 H2 p. destruct (H2 p) as [Heq | Hpic]; [|right; exact Hpic].
  rewrite Heq. apply H1.
Qed.

Lemma onlyPictures_forM_ {A} (f : A -> M unit) l :
  (forall x s, onlyPictures (disk s) (disk (snd (f x s)))) ->
  forall s, onlyPictures (disk s) (disk (snd (forM_ f l s))).
Proof.
  intros Hf. induction l as [|x l IH]; intros s; [apply onlyPictures_refl|].
  rewrite forM__cons. specialize (Hf x s).
  destruct (f x s) as [[[]|e] s']; cbn [snd] in *; [|exact Hf].
  eapply onlyPictures_trans; [exact Hf | apply IH].
Qed.

Lemma processItemCli_onlyPictures item :
  forall currentInputDir currentOutputDir s,
    onlyPictures (disk s)
      (disk (snd (processItemCli env currentInputDir currentOutputDir item s))).
Proof.
  induction item as [name items IH | name data] using node_tree_ind;
    intros inDir outDir s; cbn [processItemCli nodeName].
  - rewrite bind_run, fs_run.
    destruct (fs_fault env (Stat _)); [apply onlyPictures_refl|].
    rewrite bind_run, fs_run.
    destruct (fs_fault env (Readdir _)); [apply onlyPictures_refl|].
    revert s. induction IH as [|item items Hitem _ IHitems]; intros s;
      [apply onlyPictures_refl|].
    rewrite forM__cons. specialize (Hitem (inDir ++ [name]) (outDir ++ [name]) s).
    destruct (processItemCli env (inDir ++ [name]) (outDir ++ [name]) item s)
      as [[[]|e] s']; cbn [snd] in *; [|exact Hitem].
    eapply onlyPictures_trans; [exact Hitem | apply IHitems].
  - rewrite bind_run, fs_run.
    destruct (fs_fault env (Stat _)); [apply onlyPictures_refl|].
    destruct (isPng name) eqn:Hpng; [|apply onlyPictures_refl].
    intros p.
    destruct (convertWithQuality_writes data
                (outDir ++ [Path.parse_name name +:+ ".webp"]) 90 s p)
      as [Heq | (-> & webpBuffer & Hfile & Hsize)]; [left; exact Heq|].
    right. exists name, webpBuffer.
    split; [exact Hpng|]. split; [apply last_snoc|]. split; assumption.
Qed.

(** X14: the command-line walk changes on disk only files named [.webp]
    after an entry with a [.png] extension, each holding a buffer within the
    ceiling; entries that are not pictures are not copied. *)
Theorem cli_writes_only_pictures currentInputDir currentOutputDir items s :
  onlyPictures (disk s)
    (disk (snd (processDirectoryCli env currentInputDir currentOutputDir items s))).
Proof.
  unfold processDirectoryCli. rewrite bind_run, fs_run.
  destruct (fs_fault env (Readdir currentInputDir)); [apply onlyPictures_refl|].
  apply onlyPictures_forM_. intros item s'. apply processItemCli_onlyPictures.
Qed.

End CommandLine.

(** The command line on the sample archive: the first picture is saved, the
    empty one stops the walk, and the text file is not copied. *)
Example cli_sample_run :
  let out := processDirectoryCli (sampleEnv sampleEntries) ["in"] ["out"]
               sampleEntries (startState emptyDisk) in
  fst out = Throw (CodecError "Input Buffer is empty") /\
  map_to_list (files (disk (snd out))) = [(["out"; "a.webp"], riff)].
Proof. vm_compute. split; reflexivity. Qed.

Section TwoWalks.

Variable env : Env.
Variable jobId : string.

(** A file system call that does not raise acts on the disk alone. *)
Lemma mkdirSync_agrees p s s2 :
  disk s2 = disk s ->
  fst (mkdirSync env p s2) = fst (mkdirSync env p s) /\
  disk (snd (mkdirSync env p s2)) = disk (snd (mkdirSync env p s)).
Proof.
  intros Hdisk. unfold mkdirSync. rewrite !bind_run, !fs_run.
  destruct (fs_fault env (Mkdir p)); cbn; [auto|]. rewrite Hdisk. auto.
Qed.

Lemma processItem_agrees item :
  forall sourceDir outputDir s s2,
    disk s2 = disk s ->
    fst (processItemSync env sourceDir outputDir item s) = Ok tt ->
    fst (processItem env jobId sourceDir outputDir item s2) = Ok tt /\
    disk (snd (processItem env jobId sourceDir outputDir item s2)) =
      disk (snd (processItemSync env sourceDir outputDir item s)).
Proof.
  induction item as [name items IH | name data] using node_tree_ind;
    intros sourceDir outputDir s s2 Hdisk;
    cbn [processItemSync processItem nodeName].
  - rewrite !bind_run, !fs_run.
    destruct (fs_fault env (Stat _)); [discriminate|].
    rewrite !bind_run.
    destruct (mkdirSync_agrees (outputDir ++ [name]) s s2 Hdisk) as [Hfst Hsnd].
    destruct (mkdirSync env (outputDir ++ [name]) s) as [[[]|e] s1];
      destruct (mkdirSync env (outputDir ++ [name]) s2) as [[[]|e2] s3];
      cbn [fst snd] in Hfst, Hsnd; try discriminate.
    clear Hfst Hdisk. rewrite !bind_run, !fs_run.
    destruct (fs_fault env (Readdir _)); [discriminate|].
    revert s1 s3 Hsnd.
    induction IH as [|item items Hitem _ IHitems]; intros s1 s3 Hdisk;
      [intros _; split; [reflexivity | exact Hdisk]|].
    rewrite !forM__cons.
    specialize (Hitem (sourceDir ++ [name]) (outputDir ++ [name]) s1 s3 Hdisk).
    destruct (processItemSync env (sourceDir ++ [name]) (outputDir ++ [name]) item s1)
      as [[[]|e] s1']; [|discriminate].
    destruct (Hitem eq_refl) as [Hfst Hsnd].
    destruct (processItem env jobId (sourceDir ++ [name]) (outputDir ++ [name]) item s3)
      as [[[]|e] s3']; [|discriminate].
    apply IHitems. exact Hsnd.
  - rewrite !bind_run, !fs_run.
    destruct (fs_fault env (Stat _)); [discriminate|].
    destruct (isPng name).
    + unfold try_catch, convertEntry, readFileSync, writeFileSync.
      rewrite !bind_run, !fs_run.
      destruct (fs_fault env (ReadFile _)); [discriminate|].
      unfold mret, M_ret. cbn beta iota. rewrite !bind_run. unfold settle.
      destruct (snd (convertToWebP env data 90)); [|discriminate].
      rewrite !bind_run, !fs_run.
      destruct (fs_fault env (WriteFile _)); [discriminate|].
      intros _. cbn. rewrite Hdisk. split; reflexivity.
    + unfold copyFileSync. rewrite !bind_run, !fs_run.
      destruct (fs_fault env (CopyFile _ _)); [discriminate|].
      intros _. cbn. rewrite Hdisk. split; reflexivity.
Qed.

(** X15: where the walk of the synchronous endpoint ends without exception,
    the walk of the job engine, started on the same disk, ends without
    exception as well and leaves the same directories and files. *)
Theorem walks_agree_where_sync_succeeds sourceDir outputDir items s s2 :
  disk s2 = disk s ->
  fst (processDirectorySync env sourceDir outputDir items s) = Ok tt ->
  fst (processDirectory env jobId sourceDir outputDir items s2) = Ok tt /\
  disk (snd (processDirectory env jobId sourceDir outputDir items s2)) =
    disk (snd (processDirectorySync env sourceDir outputDir items s)).
Proof.
  unfold processDirectorySync, processDirectory. rewrite !bind_run, !fs_run.
  destruct (fs_fault env (Readdir sourceDir)); [discriminate|].
  revert s s2. induction items as [|item items IH]; intros s s2 Hdisk;
    [intros _; split; [reflexivity | exact Hdisk]|].
  rewrite !forM__cons.
  pose proof (processItem_agrees item sourceDir outputDir s s2 Hdisk) as Hitem.
  destruct (processItemSync env sourceDir outputDir item s) as [[[]|e] s1];
    [|discriminate].
  destruct (Hitem eq_refl) as [Hfst Hsnd].
  destruct (processItem env jobId sourceDir outputDir item s2) as [[[]|e] s3];
    [|discriminate].
  apply IH. exact Hsnd.
Qed.

End TwoWalks.

(** one picture and a folder with a text file, the count already taken *)
Lemma walks_agree_where_sync_succeeds_witness :
  let env := sampleEnv [] in
  let items := [RegularFile "a.png" [Byte.x89; Byte.x50];
                Directory "sub" [RegularFile "notes.txt" [Byte.x68; Byte.x69]]] in
  let s2 := {| published := []; disk := emptyDisk; totalPngs := 1; processedPngs := 0 |} in
  fst (processDirectory env "1700000000000" ["in"] ["out"] items s2) = Ok tt /\
  disk (snd (processDirectory env "1700000000000" ["in"] ["out"] items s2)) =
    disk (snd (processDirectorySync env ["in"] ["out"] items (startState emptyDisk))).
Proof.
  apply (walks_agree_where_sync_succeeds (sampleEnv []) "1700000000000"
           ["in"] ["out"]
           [RegularFile "a.png" [Byte.x89; Byte.x50];
            Directory "sub" [RegularFile "notes.txt" [Byte.x68; Byte.x69]]]
           (startState emptyDisk)
           {| published := []; disk := emptyDisk; totalPngs := 1; processedPngs := 0 |});
    [reflexivity | vm_compute; reflexivity].
Defined.
